(** * The real-time session manager of the web UI (App.tsx)

    A shallow embedding of the stateful core of
    [src/homelab_agent/webui/frontend/src/App.tsx]: the WebSocket handlers
    installed by [connect], the session actions [switchSession],
    [handleNewSession], [sendMessage] and [forgetSession], and the
    [useEffect] that reconnects when [userId] changes.

    The browser pieces the handlers call ([JSON.parse], [JSON.stringify],
    [String.prototype.trim], property reads, truthiness, the [WebSocket]
    object) are modelled next to them so that every handler can be run on a
    concrete frame.

    Around that core: the session list ([fetchSessions]) and the keyboard
    shortcuts of [App.tsx], the [keydown] handlers of the message box and
    of the sidebar, and the helpers of the session browser. *)

From Stdlib Require Import ZArith NArith List String Ascii Bool Lia.
From stdpp Require Import base option list.
Import ListNotations.

Set Warnings "-register-all".

Local Open Scope N_scope.

(** ** JavaScript strings

    A JavaScript string is a sequence of UTF-16 code units; each code unit is
    kept as an [N] below [2^16]. *)

Abbreviation jstring := (list N).

(** A literal of the source, written with ASCII characters only. *)
Definition str (s : string) : jstring :=
  map N_of_ascii (list_ascii_of_string s).
Arguments str : simpl never.

(** The code units [String.prototype.trim] strips: ECMAScript WhiteSpace and
    LineTerminator. *)
Definition is_js_whitespace (c : N) : bool :=
  (9 <=? c) && (c <=? 13)
  || (c =? 32) || (c =? 160) || (c =? 5760)
  || (8192 <=? c) && (c <=? 8202)
  || (c =? 8232) || (c =? 8233) || (c =? 8239) || (c =? 8287)
  || (c =? 12288) || (c =? 65279).

Fixpoint trimStart (s : jstring) : jstring :=
  match s with
  | c :: s' => if is_js_whitespace c then trimStart s' else s
  | [] => []
  end.

Definition trimEnd (s : jstring) : jstring := rev (trimStart (rev s)).

Definition trim (s : jstring) : jstring := trimEnd (trimStart s).

(** [s.substr(start, len)] for non-negative arguments. *)
Definition substr (start len : nat) (s : jstring) : jstring :=
  take len (drop start s).

(** [n.toString()] for a non-negative integer: its decimal digits. *)
Fixpoint uint_digits (u : Decimal.uint) : jstring :=
  match u with
  | Decimal.Nil => []
  | Decimal.D0 u => 48 :: uint_digits u
  | Decimal.D1 u => 49 :: uint_digits u
  | Decimal.D2 u => 50 :: uint_digits u
  | Decimal.D3 u => 51 :: uint_digits u
  | Decimal.D4 u => 52 :: uint_digits u
  | Decimal.D5 u => 53 :: uint_digits u
  | Decimal.D6 u => 54 :: uint_digits u
  | Decimal.D7 u => 55 :: uint_digits u
  | Decimal.D8 u => 56 :: uint_digits u
  | Decimal.D9 u => 57 :: uint_digits u
  end.

Definition N_toString (n : N) : jstring := uint_digits (N.to_uint n).

(** ** JavaScript values

    The values [JSON.parse] can return, plus [undefined] for absent
    properties.  A number is kept as the decimal literal it was read from,
    [(-1)^neg * m * 10^e]; the handlers only ever test a number for
    truthiness. *)

Inductive value : Type :=
| VUndefined
| VNull
| VBool (b : bool)
| VNumber (neg : bool) (m : N) (e : Z)
| VString (s : jstring)
| VArray (elems : list value)
| VObject (props : list (jstring * value)).

(** A decimal literal denotes a non-zero double unless it rounds to zero:
    the smallest positive double is [2^-1074], and anything up to half of it
    rounds to [0] (ties to even). *)
Definition number_nonzero (m : N) (e : Z) : bool :=
  negb (m =? 0) &&
  ((0 <=? e)%Z || (10 ^ (- e) <? Z.of_N m * 2 ^ 1075)%Z).

(** [ToBoolean]: what [if (v)], [v && _] and [v || _] test. *)
Definition ToBoolean (v : value) : bool :=
  match v with
  | VUndefined | VNull => false
  | VBool b => b
  | VNumber _ m e => number_nonzero m e
  | VString s => match s with [] => false | _ :: _ => true end
  | VArray _ | VObject _ => true
  end.

(** [a || b] *)
Definition js_or (a b : value) : value := if ToBoolean a then a else b.

(** [v === 'literal'] *)
Definition strict_eq_str (v : value) (s : jstring) : bool :=
  match v with
  | VString t => bool_decide (t = s)
  | _ => false
  end.

(** A literal that contains double quotes, written with ['] in their
    place. *)
Definition wire (s : string) : jstring :=
  map (fun c => if c =? 39 then 34 else c) (str s).
Arguments wire : simpl never.

(** Exceptions the modelled code can raise. *)
Inductive error : Type := SyntaxError | TypeError | InvalidStateError.

(** The binding of [k] in an object: [JSON.parse] lets a later duplicate key
    overwrite an earlier one, so the last binding is the property's value. *)
Fixpoint lookup_prop (k : jstring) (props : list (jstring * value)) : option value :=
  match props with
  | [] => None
  | (k', v) :: rest =>
      match lookup_prop k rest with
      | Some w => Some w
      | None => if bool_decide (k' = k) then Some v else None
      end
  end.

(** [v.k] for a [v] that is neither [null] nor [undefined], and for the
    property names the handlers read ([type], [content], [sender],
    [timestamp], [typing]): none of them lives on a prototype, so only an
    object can have them. *)
Definition member (v : value) (k : jstring) : value :=
  match v with
  | VObject props => default VUndefined (lookup_prop k props)
  | _ => VUndefined
  end.

(** Reading a property of [null] or [undefined] throws a [TypeError]. *)
Definition nullish (v : value) : bool :=
  match v with
  | VUndefined | VNull => true
  | _ => false
  end.

(** ** [JSON.parse]

    A lexer that reads one code unit at a time, followed by a pushdown
    parser over the tokens; both are total, a rejected text is [None]
    (the [SyntaxError] of [JSON.parse]). *)

Module JSON.

Inductive token : Type :=
| TLBrace | TRBrace | TLBracket | TRBracket | TColon | TComma
| TString (s : jstring)
| TNumber (neg : bool) (m : N) (e : Z)
| TTrue | TFalse | TNull.

(** Where the lexer is inside a number literal: an optional minus sign,
    then a single zero or a digit string without leading zero, then an
    optional fraction (a point and digits), then an optional exponent
    (e or E, an optional sign, digits). *)
Inductive num_phase : Type :=
| NSign      (* after '-': a digit must follow *)
| NZero      (* after a leading '0' *)
| NInt       (* inside the integer digits *)
| NPoint     (* after '.': a digit must follow *)
| NFrac      (* inside the fraction digits *)
| NE         (* after 'e' or 'E': a sign or a digit must follow *)
| NESign     (* after the exponent sign: a digit must follow *)
| NExp.      (* inside the exponent digits *)

Record num_acc : Type := NumAcc {
  n_neg : bool;    (* a leading '-' was read *)
  n_mant : N;      (* the integer and fraction digits read so far *)
  n_frac : Z;      (* how many of them are fraction digits *)
  n_eneg : bool;   (* the exponent has a '-' *)
  n_exp : N        (* the exponent digits read so far *)
}.

Inductive mode : Type :=
| MStart
| MString (acc : jstring)                  (* code units so far, reversed *)
| MEscape (acc : jstring)                  (* just after a backslash *)
| MUnicode (acc : jstring) (k : nat) (cu : N)  (* \u with k hex digits read *)
| MNumber (ph : num_phase) (a : num_acc)
| MWord (rest : jstring) (t : token).      (* inside true, false or null *)

Definition is_ws (c : N) : bool :=
  (c =? 32) || (c =? 9) || (c =? 10) || (c =? 13).

Definition digit (c : N) : option N :=
  if (48 <=? c) && (c <=? 57) then Some (c - 48) else None.

Definition hex_digit (c : N) : option N :=
  if (48 <=? c) && (c <=? 57) then Some (c - 48)
  else if (97 <=? c) && (c <=? 102) then Some (c - 87)
  else if (65 <=? c) && (c <=? 70) then Some (c - 55)
  else None.

Definition num_start (neg : bool) (m : N) : num_acc :=
  NumAcc neg m 0 false 0.

(** A code unit met between tokens. *)
Definition lex_start (c : N) : option (mode * list token) :=
  if is_ws c then Some (MStart, [])
  else if c =? 123 then Some (MStart, [TLBrace])
  else if c =? 125 then Some (MStart, [TRBrace])
  else if c =? 91 then Some (MStart, [TLBracket])
  else if c =? 93 then Some (MStart, [TRBracket])
  else if c =? 58 then Some (MStart, [TColon])
  else if c =? 44 then Some (MStart, [TComma])
  else if c =? 34 then Some (MString [], [])
  else if c =? 45 then Some (MNumber NSign (num_start true 0), [])
  else if c =? 48 then Some (MNumber NZero (num_start false 0), [])
  else if c =? 116 then Some (MWord (str "rue") TTrue, [])
  else if c =? 102 then Some (MWord (str "alse") TFalse, [])
  else if c =? 110 then Some (MWord (str "ull") TNull, [])
  else match digit c with
       | Some d => Some (MNumber NInt (num_start false d), [])
       | None => None
       end.

(** The token of a finished number literal, if the literal may end in
    phase [ph]. *)
Definition num_token (ph : num_phase) (a : num_acc) : option token :=
  match ph with
  | NZero | NInt | NFrac | NExp =>
      let ex := if n_eneg a then (- Z.of_N (n_exp a))%Z else Z.of_N (n_exp a) in
      Some (TNumber (n_neg a) (n_mant a) (ex - n_frac a)%Z)
  | NSign | NPoint | NE | NESign => None
  end.

Definition push_mant (a : num_acc) (d : N) (frac : bool) : num_acc :=
  NumAcc (n_neg a) (n_mant a * 10 + d)
         (if frac then (n_frac a + 1)%Z else n_frac a) (n_eneg a) (n_exp a).

Definition push_exp (a : num_acc) (d : N) : num_acc :=
  NumAcc (n_neg a) (n_mant a) (n_frac a) (n_eneg a) (n_exp a * 10 + d).

Definition set_eneg (a : num_acc) : num_acc :=
  NumAcc (n_neg a) (n_mant a) (n_frac a) true (n_exp a).

(** The next phase of a number literal on code unit [c], or [None] when [c]
    does not continue the literal. *)
Definition num_step (ph : num_phase) (a : num_acc) (c : N)
  : option (num_phase * num_acc) :=
  let is_e := (c =? 101) || (c =? 69) in
  match ph, digit c with
  | NSign, Some d => Some (if d =? 0 then NZero else NInt, push_mant a d false)
  | NInt, Some d => Some (NInt, push_mant a d false)
  | NPoint, Some d | NFrac, Some d => Some (NFrac, push_mant a d true)
  | NE, Some d | NESign, Some d | NExp, Some d => Some (NExp, push_exp a d)
  | NZero, None | NInt, None =>
      if c =? 46 then Some (NPoint, a)
      else if is_e then Some (NE, a) else None
  | NFrac, None => if is_e then Some (NE, a) else None
  | NE, None =>
      if c =? 43 then Some (NESign, a)
      else if c =? 45 then Some (NESign, set_eneg a) else None
  | _, _ => None
  end.

Definition lex_step (m : mode) (c : N) : option (mode * list token) :=
  match m with
  | MStart => lex_start c
  | MString acc =>
      if c =? 34 then Some (MStart, [TString (rev acc)])
      else if c =? 92 then Some (MEscape acc, [])
      else if c <? 32 then None
      else Some (MString (c :: acc), [])
  | MEscape acc =>
      if c =? 34 then Some (MString (34 :: acc), [])
      else if c =? 92 then Some (MString (92 :: acc), [])
      else if c =? 47 then Some (MString (47 :: acc), [])
      else if c =? 98 then Some (MString (8 :: acc), [])
      else if c =? 102 then Some (MString (12 :: acc), [])
      else if c =? 110 then Some (MString (10 :: acc), [])
      else if c =? 114 then Some (MString (13 :: acc), [])
      else if c =? 116 then Some (MString (9 :: acc), [])
      else if c =? 117 then Some (MUnicode acc 0 0, [])
      else None
  | MUnicode acc k cu =>
      match hex_digit c with
      | Some h =>
          let cu' := cu * 16 + h in
          match k with
          | 3%nat => Some (MString (cu' :: acc), [])
          | _ => Some (MUnicode acc (S k) cu', [])
          end
      | None => None
      end
  | MNumber ph a =>
      match num_step ph a c with
      | Some (ph', a') => Some (MNumber ph' a', [])
      | None =>
          match num_token ph a, lex_start c with
          | Some t, Some (m', ts) => Some (m', t :: ts)
          | _, _ => None
          end
      end
  | MWord rest t =>
      match rest with
      | [] => None
      | c' :: rest' =>
          if c =? c'
          then match rest' with
               | [] => Some (MStart, [t])
               | _ :: _ => Some (MWord rest' t, [])
               end
          else None
      end
  end.

Fixpoint lex (m : mode) (text : jstring) : option (list token) :=
  match text with
  | [] =>
      match m with
      | MStart => Some []
      | MNumber ph a => t ← num_token ph a; Some [t]
      | _ => None
      end
  | c :: text' =>
      '(m', ts) ← lex_step m c;
      rest ← lex m' text';
      Some (ts ++ rest)
  end.

(** A container whose closing bracket has not been read yet. *)
Inductive frame : Type :=
| FArray (elems : list value)                          (* reversed *)
| FObject (props : list (jstring * value)) (key : jstring).
    (* [props] reversed; [key] is the member whose value is being read *)

Inductive pstate : Type :=
| SValue (stk : list frame)       (* a value must follow *)
| SArrOpen (stk : list frame)     (* after '[': a value or ']' *)
| SObjOpen (stk : list frame)     (* after '{': a key or '}' *)
| SKey (props : list (jstring * value)) (stk : list frame)   (* after ',' in an object *)
| SColon (props : list (jstring * value)) (key : jstring) (stk : list frame)
| SArrNext (elems : list value) (stk : list frame)           (* ',' or ']' *)
| SObjNext (props : list (jstring * value)) (stk : list frame) (* ',' or '}' *)
| SDone (v : value).

(** A finished value goes into the innermost open container. *)
Definition complete (v : value) (stk : list frame) : pstate :=
  match stk with
  | [] => SDone v
  | FArray elems :: stk' => SArrNext (v :: elems) stk'
  | FObject props key :: stk' => SObjNext ((key, v) :: props) stk'
  end.

(** A token where a value must start. *)
Definition start_value (t : token) (stk : list frame) : option pstate :=
  match t with
  | TLBrace => Some (SObjOpen stk)
  | TLBracket => Some (SArrOpen stk)
  | TString s => Some (complete (VString s) stk)
  | TNumber neg m e => Some (complete (VNumber neg m e) stk)
  | TTrue => Some (complete (VBool true) stk)
  | TFalse => Some (complete (VBool false) stk)
  | TNull => Some (complete VNull stk)
  | TRBrace | TRBracket | TColon | TComma => None
  end.

Definition parse_step (s : pstate) (t : token) : option pstate :=
  match s, t with
  | SValue stk, _ => start_value t stk
  | SArrOpen stk, TRBracket => Some (complete (VArray []) stk)
  | SArrOpen stk, _ => start_value t (FArray [] :: stk)
  | SObjOpen stk, TRBrace => Some (complete (VObject []) stk)
  | SObjOpen stk, TString k => Some (SColon [] k stk)
  | SKey props stk, TString k => Some (SColon props k stk)
  | SColon props k stk, TColon => Some (SValue (FObject props k :: stk))
  | SArrNext elems stk, TComma => Some (SValue (FArray elems :: stk))
  | SArrNext elems stk, TRBracket => Some (complete (VArray (rev elems)) stk)
  | SObjNext props stk, TComma => Some (SKey props stk)
  | SObjNext props stk, TRBrace => Some (complete (VObject (rev props)) stk)
  | _, _ => None
  end.

Fixpoint run (s : pstate) (ts : list token) : option pstate :=
  match ts with
  | [] => Some s
  | t :: ts' => s' ← parse_step s t; run s' ts'
  end.

(** [JSON.parse(text)]: [None] stands for the [SyntaxError] it throws. *)
Definition parse (text : jstring) : option value :=
  ts ← lex MStart text;
  s ← run (SValue []) ts;
  match s with
  | SDone v => Some v
  | _ => None
  end.

End JSON.


(** ** [JSON.stringify] of an object whose properties are strings

    The two outbound actions are [{ type: 'message', content }] and
    [{ type: 'forget' }]; every property value is a string. *)

Definition hex_lower (d : N) : N := if d <? 10 then 48 + d else 87 + d.

(** The six code units [\uXXXX] of an escaped code unit. *)
Definition unicode_escape (c : N) : jstring :=
  [92; 117; hex_lower (c / 4096 mod 16); hex_lower (c / 256 mod 16);
   hex_lower (c / 16 mod 16); hex_lower (c mod 16)].

Definition is_high_surrogate (c : N) : bool := (55296 <=? c) && (c <=? 56319).
Definition is_low_surrogate (c : N) : bool := (56320 <=? c) && (c <=? 57343).

(** QuoteJSONString without the surrounding quotes: the short escapes,
    [\u00XX] for the other control characters and for lone surrogates. *)
Fixpoint quote_body (s : jstring) : jstring :=
  match s with
  | [] => []
  | c :: s' =>
      if c =? 8 then str "\b" ++ quote_body s'
      else if c =? 9 then str "\t" ++ quote_body s'
      else if c =? 10 then str "\n" ++ quote_body s'
      else if c =? 12 then str "\f" ++ quote_body s'
      else if c =? 13 then str "\r" ++ quote_body s'
      else if c =? 34 then [92; 34] ++ quote_body s'
      else if c =? 92 then [92; 92] ++ quote_body s'
      else if c <? 32 then unicode_escape c ++ quote_body s'
      else if is_high_surrogate c then
        match s' with
        | d :: s'' =>
            if is_low_surrogate d then c :: d :: quote_body s''
            else unicode_escape c ++ quote_body s'
        | [] => unicode_escape c
        end
      else if is_low_surrogate c then unicode_escape c ++ quote_body s'
      else c :: quote_body s'
  end.

Definition quote (s : jstring) : jstring := [34] ++ quote_body s ++ [34].

Fixpoint stringify_members (props : list (jstring * jstring)) : jstring :=
  match props with
  | [] => []
  | [(k, v)] => quote k ++ [58] ++ quote v
  | (k, v) :: rest => quote k ++ [58] ++ quote v ++ [44] ++ stringify_members rest
  end.

Definition JSON_stringify (props : list (jstring * jstring)) : jstring :=
  [123] ++ stringify_members props ++ [125].

(** ** The state of the component *)

(** [new Date()] reads the clock; [new Date(s)] converts the value it is
    given, which is kept as it is. *)
Inductive Date : Type :=
| DateNow (t : N)
| DateOf (v : value).

(** [MessageData].  The TypeScript types are erased at run time, so
    [sender] and [content] hold whatever value the frame carried. *)
Record MessageData : Type := mkMessage {
  id : jstring;
  sender : value;
  content : value;
  timestamp : Date
}.

(** [WebSocket.readyState] *)
Inductive ReadyState : Type := CONNECTING | OPEN | CLOSING | CLOSED.

Record WebSocket : Type := mkWebSocket {
  url : jstring;
  readyState : ReadyState;
  sent : list jstring          (* the frames handed to [send], oldest first *)
}.

(** [window.location] *)
Record Location : Type := mkLocation {
  protocol : jstring;
  host : jstring
}.

(** What one run of a handler reads from the clock and from
    [Math.random]. *)
Record Clock : Type := mkClock {
  Date_now : N;                (* Date.now() *)
  Math_random_36 : jstring;    (* Math.random().toString(36) *)
  new_Date : N                 (* the instant of new Date() *)
}.

(** The calls a handler makes on React's setters and on sockets, in the
    order it makes them. *)
Inductive effect : Type :=
| EAppendMessage (m : MessageData)      (* setMessages(prev => [...prev, m]) *)
| EClearMessages                        (* setMessages([]) *)
| ESetInput (s : jstring)
| ESetIsTyping (v : value)
| ESetIsConnected (b : bool)
| ESetUserId (s : jstring)
| ESetShowSessionPicker (b : bool)
| ESetNewUserId (s : jstring)
| ENewWebSocket (ws : nat) (u : jstring)
| EClose (ws : nat)
| ESend (ws : nat) (data : jstring).

(** The [useState] cells and refs of [App] that the modelled handlers touch
    ([sessions], [showSidebar] and [sidebarTab] are touched by none of
    them), the sockets the browser holds, and the effects so far.  A socket
    is named by its position in [sockets]; [wsRef] is [wsRef.current]. *)
Record App : Type := mkApp {
  messages : list MessageData;
  input : jstring;
  isTyping : value;
  isConnected : bool;
  userId : jstring;
  showSessionPicker : bool;
  newUserId : jstring;
  wsRef : option nat;
  sockets : list WebSocket;
  effectDeps : option jstring;   (* [userId] when the connect effect last ran *)
  location : Location;
  log : list effect              (* oldest first *)
}.

Definition with_messages (f : list MessageData -> list MessageData) (a : App) : App :=
  mkApp (f (messages a)) (input a) (isTyping a) (isConnected a) (userId a)
        (showSessionPicker a) (newUserId a) (wsRef a) (sockets a)
        (effectDeps a) (location a) (log a).

Definition with_input (s : jstring) (a : App) : App :=
  mkApp (messages a) s (isTyping a) (isConnected a) (userId a)
        (showSessionPicker a) (newUserId a) (wsRef a) (sockets a)
        (effectDeps a) (location a) (log a).

Definition with_isTyping (v : value) (a : App) : App :=
  mkApp (messages a) (input a) v (isConnected a) (userId a)
        (showSessionPicker a) (newUserId a) (wsRef a) (sockets a)
        (effectDeps a) (location a) (log a).

Definition with_isConnected (b : bool) (a : App) : App :=
  mkApp (messages a) (input a) (isTyping a) b (userId a)
        (showSessionPicker a) (newUserId a) (wsRef a) (sockets a)
        (effectDeps a) (location a) (log a).

Definition with_userId (s : jstring) (a : App) : App :=
  mkApp (messages a) (input a) (isTyping a) (isConnected a) s
        (showSessionPicker a) (newUserId a) (wsRef a) (sockets a)
        (effectDeps a) (location a) (log a).

Definition with_showSessionPicker (b : bool) (a : App) : App :=
  mkApp (messages a) (input a) (isTyping a) (isConnected a) (userId a)
        b (newUserId a) (wsRef a) (sockets a)
        (effectDeps a) (location a) (log a).

Definition with_newUserId (s : jstring) (a : App) : App :=
  mkApp (messages a) (input a) (isTyping a) (isConnected a) (userId a)
        (showSessionPicker a) s (wsRef a) (sockets a)
        (effectDeps a) (location a) (log a).

Definition with_wsRef (r : option nat) (a : App) : App :=
  mkApp (messages a) (input a) (isTyping a) (isConnected a) (userId a)
        (showSessionPicker a) (newUserId a) r (sockets a)
        (effectDeps a) (location a) (log a).

Definition with_sockets (f : list WebSocket -> list WebSocket) (a : App) : App :=
  mkApp (messages a) (input a) (isTyping a) (isConnected a) (userId a)
        (showSessionPicker a) (newUserId a) (wsRef a) (f (sockets a))
        (effectDeps a) (location a) (log a).

Definition with_effectDeps (d : option jstring) (a : App) : App :=
  mkApp (messages a) (input a) (isTyping a) (isConnected a) (userId a)
        (showSessionPicker a) (newUserId a) (wsRef a) (sockets a)
        d (location a) (log a).

Definition logged (e : effect) (a : App) : App :=
  mkApp (messages a) (input a) (isTyping a) (isConnected a) (userId a)
        (showSessionPicker a) (newUserId a) (wsRef a) (sockets a)
        (effectDeps a) (location a) (log a ++ [e]).

(** ** Handlers as state transformers that may throw

    A handler runs on the component's state and either returns or throws;
    in both cases the setter calls made so far stay made. *)

Inductive outcome (A : Type) : Type :=
| Ok (x : A) (a : App)
| Throw (e : error) (a : App).
Arguments Ok {A} x a.
Arguments Throw {A} e a.

Definition M (A : Type) : Type := App -> outcome A.

#[export] Instance M_ret : MRet M := fun A x a => Ok x a.

#[export] Instance M_bind : MBind M := fun A B f m a =>
  match m a with
  | Ok x a' => f x a'
  | Throw e a' => Throw e a'
  end.

Definition throw {A : Type} (e : error) : M A := fun a => Throw e a.
Definition gets {A : Type} (f : App -> A) : M A := fun a => Ok (f a) a.
Definition modify (f : App -> App) : M unit := fun a => Ok tt (f a).

(** The state a handler leaves behind, returned or thrown. *)
Definition final {A : Type} (o : outcome A) : App :=
  match o with
  | Ok _ a => a
  | Throw _ a => a
  end.

(** *** React's setters *)

Definition setMessages_append (m : MessageData) : M unit :=
  modify (fun a => logged (EAppendMessage m) (with_messages (fun prev => prev ++ [m]) a)).

Definition setMessages_empty : M unit :=
  modify (fun a => logged EClearMessages (with_messages (fun _ => []) a)).

Definition setInput (s : jstring) : M unit :=
  modify (fun a => logged (ESetInput s) (with_input s a)).

Definition setIsTyping (v : value) : M unit :=
  modify (fun a => logged (ESetIsTyping v) (with_isTyping v a)).

Definition setIsConnected (b : bool) : M unit :=
  modify (fun a => logged (ESetIsConnected b) (with_isConnected b a)).

Definition setUserId (s : jstring) : M unit :=
  modify (fun a => logged (ESetUserId s) (with_userId s a)).

Definition setShowSessionPicker (b : bool) : M unit :=
  modify (fun a => logged (ESetShowSessionPicker b) (with_showSessionPicker b a)).

Definition setNewUserId (s : jstring) : M unit :=
  modify (fun a => logged (ESetNewUserId s) (with_newUserId s a)).

(** *** The WebSocket object *)

(** The address has a fragment: a [#] somewhere in it.  The identity goes
    into the address as it is (line 54), so an identity with a [#] gives
    such an address. *)
Definition has_fragment (u : jstring) : bool := existsb (N.eqb 35) u.
Arguments has_fragment : simpl never.

(** [new WebSocket(url)]: throws a [SyntaxError] when the address has a
    fragment, and otherwise returns a socket in state [CONNECTING].  The
    rest of the address is [ws:] or [wss:] and [window.location.host], which
    the browser has parsed already, so the fragment is the one way the
    constructor can reject it. *)
Definition new_WebSocket (u : jstring) : M nat :=
  fun a =>
    if has_fragment u then Throw SyntaxError a
    else
      let ws := length (sockets a) in
      Ok ws (logged (ENewWebSocket ws u)
               (with_sockets (fun l => l ++ [mkWebSocket u CONNECTING []]) a)).

(** [ws.close()]: nothing on a socket that is closing or closed, otherwise
    the socket starts closing. *)
Definition close_socket (s : WebSocket) : WebSocket :=
  match readyState s with
  | CLOSING | CLOSED => s
  | CONNECTING | OPEN => mkWebSocket (url s) CLOSING (sent s)
  end.

Definition ws_close (ws : nat) : M unit :=
  modify (fun a => logged (EClose ws) (with_sockets (alter close_socket ws) a)).

(** [ws.send(data)]: throws while connecting, queues the frame when open,
    discards it when closing or closed.  A handler only ever holds the name
    of a socket that [new_WebSocket] returned; the last case is for a name
    outside [sockets]. *)
Definition ws_send (ws : nat) (data : jstring) : M unit :=
  fun a =>
    match sockets a !! ws with
    | Some s =>
        match readyState s with
        | CONNECTING => Throw InvalidStateError a
        | OPEN =>
            Ok tt (logged (ESend ws data)
                     (with_sockets
                        (alter (fun s => mkWebSocket (url s) OPEN (sent s ++ [data])) ws) a))
        | CLOSING | CLOSED => Ok tt (logged (ESend ws data) a)
        end
    | None => Throw TypeError a
    end.

(** The socket [wsRef.current] refers to. *)
Definition current_socket (a : App) : option WebSocket :=
  ws ← wsRef a; sockets a !! ws.

(** [!wsRef.current || wsRef.current.readyState !== WebSocket.OPEN] *)
Definition not_open (a : App) : bool :=
  match current_socket a with
  | Some s => match readyState s with OPEN => false | _ => true end
  | None => true
  end.

(** ** The handlers of [App.tsx] *)

(** [Date.now().toString() + Math.random().toString(36)] *)
Definition fresh_message_id (clk : Clock) : jstring :=
  N_toString (Date_now clk) ++ Math_random_36 clk.

(** [data.timestamp ? new Date(data.timestamp) : new Date()] *)
Definition message_timestamp (data : value) (clk : Clock) : Date :=
  if ToBoolean (member data (str "timestamp"))
  then DateOf (member data (str "timestamp"))
  else DateNow (new_Date clk).

(** [JSON.parse(event.data)] inside a handler. *)
Definition JSON_parse (text : jstring) : M value :=
  match JSON.parse text with
  | Some v => mret v
  | None => throw SyntaxError
  end.

(** [ws.onopen], [ws.onclose], [ws.onerror] (lines 56-68); the console
    output is not modelled. *)
Definition onopen : M unit := setIsConnected true.
Definition onclose : M unit := setIsConnected false.
Definition onerror : M unit := mret tt.

(** [ws.onmessage] (lines 70-94).  The first property read, [data.type],
    throws when [data] is [null]. *)
Definition onmessage (event_data : jstring) (clk : Clock) : M unit :=
  data ← JSON_parse event_data;
  if nullish data then throw TypeError
  else if strict_eq_str (member data (str "type")) (str "message")
          && ToBoolean (member data (str "content")) then
    let newMessage :=
      {| id := fresh_message_id clk;
         sender := js_or (member data (str "sender")) (VString (str "assistant"));
         content := member data (str "content");
         timestamp := message_timestamp data clk |} in
    setMessages_append newMessage;;
    setIsTyping (VBool false)
  else if strict_eq_str (member data (str "type")) (str "typing") then
    setIsTyping (js_or (member data (str "typing")) (VBool false))
  else if strict_eq_str (member data (str "type")) (str "tool")
          && ToBoolean (member data (str "content")) then
    let toolMessage :=
      {| id := fresh_message_id clk;
         sender := VString (str "tool");
         content := member data (str "content");
         timestamp := message_timestamp data clk |} in
    setMessages_append toolMessage
  else mret tt.

(** The address of the socket (lines 52-54):
    [`${protocol}//${host}/ws/${targetUserId}`]. *)
Definition ws_url (loc : Location) (targetUserId : jstring) : jstring :=
  let protocol' :=
    if bool_decide (protocol loc = str "https:") then str "wss:" else str "ws:" in
  protocol' ++ str "//" ++ host loc ++ str "/ws/" ++ targetUserId.

(** [connect] (lines 46-97).  When the constructor throws, the old socket
    has been closed and [wsRef.current] still names it. *)
Definition connect (targetUserId : jstring) : M unit :=
  r ← gets wsRef;
  match r with
  | Some old => ws_close old
  | None => mret tt
  end;;
  loc ← gets location;
  ws ← new_WebSocket (ws_url loc targetUserId);
  modify (with_wsRef (Some ws)).

(** The cleanup of the connect effect (lines 102-106). *)
Definition connect_cleanup : M unit :=
  r ← gets wsRef;
  match r with
  | Some ws => ws_close ws
  | None => mret tt
  end.

(** [useEffect(..., [userId, connect])] (lines 99-107), as React runs it
    after a render: on mount, and afterwards only when a dependency differs
    from its value at the previous run.  [connect] is a [useCallback] with
    no dependencies and never differs; [userId] is a string, compared by
    value. *)
Definition run_effects : M unit :=
  deps ← gets effectDeps;
  uid ← gets userId;
  match deps with
  | None =>
      connect uid;;
      modify (with_effectDeps (Some uid))
  | Some prev =>
      if bool_decide (prev = uid) then mret tt
      else
        connect_cleanup;;
        connect uid;;
        modify (with_effectDeps (Some uid))
  end.

(** [switchSession] (lines 150-154). *)
Definition switchSession (newId : jstring) : M unit :=
  setMessages_empty;;
  setUserId newId;;
  setShowSessionPicker false.

(** ['web_' + Math.random().toString(36).substr(2, 9)] *)
Definition random_id (random36 : jstring) : jstring :=
  str "web_" ++ substr 2 9 random36.

(** [handleNewSession] (lines 156-160); [random36] is what
    [Math.random().toString(36)] returns if it is reached. *)
Definition handleNewSession (random36 : jstring) : M unit :=
  newUserId' ← gets newUserId;
  let id' :=
    match trim newUserId' with
    | [] => random_id random36
    | _ :: _ => trim newUserId'
    end in
  switchSession id';;
  setNewUserId [].

(** [sendMessage] (lines 162-179). *)
Definition sendMessage (clk : Clock) : M unit :=
  input' ← gets input;
  let content' := trim input' in
  closed ← gets not_open;
  if match content' with [] => true | _ :: _ => false end || closed then mret tt
  else
    let userMessage :=
      {| id := fresh_message_id clk;
         sender := VString (str "user");
         content := VString content';
         timestamp := DateNow (new_Date clk) |} in
    setMessages_append userMessage;;
    r ← gets wsRef;
    match r with
    | Some ws =>
        ws_send ws (JSON_stringify [(str "type", str "message"); (str "content", content')])
    | None => throw TypeError
    end;;
    setInput [];;
    setIsTyping (VBool true).

(** [forgetSession] (lines 181-185). *)
Definition forgetSession : M unit :=
  closed ← gets not_open;
  if (closed : bool) then mret tt
  else
    r ← gets wsRef;
    match r with
    | Some ws => ws_send ws (JSON_stringify [(str "type", str "forget")])
    | None => throw TypeError
    end;;
    setMessages_empty.

(** ** The event loop

    A handler runs to completion; an exception it lets escape is reported
    by the browser and ends that handler only.  React then renders with the
    setter calls made and runs the effects.  When the connect effect throws
    (the constructor rejected the address), the state kept is the one at
    the throw: the old socket closed, no new socket, and the effect not
    recorded as run for the new identity.  React, having no error boundary
    here, takes the component off the page after such a throw; the turns
    that follow one below are more than the page can still take. *)
Definition dispatch (h : M unit) (a : App) : App :=
  final (run_effects (final (h a))).

(** The component before its first render; [random36] seeds the initial
    [userId] (line 25). *)
Definition initial (loc : Location) (random36 : jstring) : App :=
  {| messages := []; input := []; isTyping := VBool false; isConnected := false;
     userId := random_id random36; showSessionPicker := false; newUserId := [];
     wsRef := None; sockets := []; effectDeps := None; location := loc; log := [] |}.

(** Mounting: the first render, then the effects. *)
Definition mount (loc : Location) (random36 : jstring) : App :=
  dispatch (mret tt) (initial loc random36).

(** What the browser does on a socket. *)
Inductive browser_event : Type :=
| Opened (ws : nat)                             (* the handshake succeeded *)
| Closed (ws : nat)                             (* the connection ended *)
| Errored (ws : nat)
| Message (ws : nat) (data : jstring) (clk : Clock)
| TypeInput (s : jstring)                       (* InputArea's onChange *)
| TypeNewUserId (s : jstring).                  (* SessionPicker's onNewUserIdChange *)

Definition set_readyState (st : ReadyState) (s : WebSocket) : WebSocket :=
  mkWebSocket (url s) st (sent s).

Definition socket_state (a : App) (ws : nat) : option ReadyState :=
  readyState <$> sockets a !! ws.

(** One turn of the event loop: the browser updates the socket, then calls
    the handler [connect] installed on it.  The open event comes only to a
    connecting socket, and a message only to an open one. *)
Definition deliver (ev : browser_event) (a : App) : App :=
  match ev with
  | Opened ws =>
      match socket_state a ws with
      | Some CONNECTING =>
          dispatch onopen (with_sockets (alter (set_readyState OPEN) ws) a)
      | _ => a
      end
  | Closed ws =>
      match socket_state a ws with
      | Some CLOSED | None => a
      | Some _ => dispatch onclose (with_sockets (alter (set_readyState CLOSED) ws) a)
      end
  | Errored ws => dispatch onerror a
  | Message ws data clk =>
      match socket_state a ws with
      | Some OPEN => dispatch (onmessage data clk) a
      | _ => a
      end
  | TypeInput s => dispatch (setInput s) a
  | TypeNewUserId s => dispatch (setNewUserId s) a
  end.

(** The operations of the specification, as the event loop runs them. *)
Definition switchTo (identity : jstring) : App -> App := dispatch (switchSession identity).
Definition createNew (random36 : jstring) : App -> App := dispatch (handleNewSession random36).
Definition appendLocal (clk : Clock) : App -> App := dispatch (sendMessage clk).
Definition forget : App -> App := dispatch forgetSession.
Definition onRemoteEvent (frame : jstring) (clk : Clock) : App -> App :=
  dispatch (onmessage frame clk).

(** The entries of the Timeline, as (sender, content). *)
Definition timeline (a : App) : list (value * value) :=
  map (fun m => (sender m, content m)) (messages a).


(** ** The entry an inbound event contributes

    The entry a frame adds to the Timeline, as a function of the frame
    alone: a message event with content contributes an entry under its
    declared sender, a tool event with content contributes an entry under
    [tool], and nothing else contributes an entry. *)
Definition event_entry (frame : jstring) (clk : Clock) : option MessageData :=
  match JSON.parse frame with
  | Some (VObject props) =>
      let data := VObject props in
      let entry (who : value) :=
        Some (mkMessage (fresh_message_id clk) who (member data (str "content"))
                        (message_timestamp data clk)) in
      if ToBoolean (member data (str "content")) then
        if strict_eq_str (member data (str "type")) (str "message")
        then entry (js_or (member data (str "sender")) (VString (str "assistant")))
        else if strict_eq_str (member data (str "type")) (str "tool")
        then entry (VString (str "tool"))
        else None
      else None
  | _ => None
  end.

(** The frames the channel delivers, one event-loop turn each. *)
Definition deliver_frames (ws : nat) (frames : list (jstring * Clock)) (a : App) : App :=
  foldl (fun a fc => deliver (Message ws fc.1 fc.2) a) a frames.

(** ** A session used in the examples *)

Module Scenario.

Definition loc : Location := mkLocation (str "http:") (str "localhost:8080").
Definition clk : Clock :=
  mkClock 1730534400123 (str "0.k3j9x2m1pq7") 1730534400124.

(** The component mounts as [web_abc123xyz] and its socket opens. *)
Definition mounted : App := mount loc (str "0.abc123xyzw99").
Definition opened : App := deliver (Opened 0%nat) mounted.

(** The user types " ping " and sends it. *)
Definition sent_ping : App :=
  appendLocal clk (deliver (TypeInput (str " ping ")) opened).

(** The server answers. *)
Definition typing_off : jstring := wire "{'type':'typing','typing':false}".
Definition pong : jstring :=
  wire "{'type':'message','sender':'assistant','content':'pong'}".
Definition answered : App :=
  deliver_frames 0%nat [(typing_off, clk); (pong, clk)] sent_ping.

(** The connection drops while the reply is awaited. *)
Definition dropped : App := deliver (Closed 0%nat) sent_ping.



(** Text is typed and then the connection drops. *)
Definition typed_when_closed : App :=
  deliver (Closed 0%nat) (deliver (TypeInput (str "hello")) answered).

(** Text is typed right after a switch to another session, while the new
    socket is still connecting. *)
Definition typed_when_connecting : App :=
  deliver (TypeInput (str "hello")) (switchTo (str "bob") answered).

(** A name typed into the session picker, with a space in front. *)
Definition picked_bob : App := deliver (TypeNewUserId (str " bob")) answered.

Definition not_json : jstring := str "{not json".
Definition empty_message : jstring := wire "{'type':'message','content':''}".
Definition ping_frame : jstring := wire "{'type':'ping'}".

End Scenario.

(** ** The states the component can be in

    One turn of the event loop: something the browser reports, or one of the
    actions the user can take on the page. *)
Inductive turn : App -> App -> Prop :=
| turn_browser (ev : browser_event) (a : App) : turn a (deliver ev a)
| turn_switch (identity : jstring) (a : App) : turn a (switchTo identity a)
| turn_create (random36 : jstring) (a : App) : turn a (createNew random36 a)
| turn_send (clk : Clock) (a : App) : turn a (appendLocal clk a)
| turn_forget (a : App) : turn a (forget a)
| turn_picker (b : bool) (a : App) : turn a (dispatch (setShowSessionPicker b) a).

(** The states that follow the mount after any number of turns. *)
Inductive reachable (loc : Location) (random36 : jstring) : App -> Prop :=
| reach_mount : reachable loc random36 (mount loc random36)
| reach_turn (a a' : App) :
    reachable loc random36 a -> turn a a' -> reachable loc random36 a'.

(** What the browser knows of each socket besides its queue. *)
Definition socket_view (a : App) : list (jstring * ReadyState) :=
  (fun s => (url s, readyState s)) <$> sockets a.

(** What holds of the sockets whether or not the last connect effect
    completed: every socket other than the one in [wsRef] is closing or
    closed; the socket in [wsRef] is addressed to the identity the connect
    effect last completed for; and once the effect has completed for an
    identity, the constructor accepted its address and [wsRef] holds a
    socket. *)
Definition sockets_tidy (a : App) : Prop :=
  (forall i u st, socket_view a !! i = Some (u, st) -> wsRef a <> Some i ->
     st = CLOSING \/ st = CLOSED) /\
  (forall ws, wsRef a = Some ws ->
     exists prev st, effectDeps a = Some prev /\
       socket_view a !! ws = Some (ws_url (location a) prev, st)) /\
  (forall prev, effectDeps a = Some prev ->
     has_fragment (ws_url (location a) prev) = false /\
     exists ws, wsRef a = Some ws).

(** After a render: the sockets are tidy; the connect effect has completed
    for the active identity if the constructor accepts its address; and
    where it has not completed (the constructor refused the address, after
    [connect] closed the socket it held) no socket is left connecting or
    open. *)
Definition well_connected (a : App) : Prop :=
  sockets_tidy a /\
  (has_fragment (ws_url (location a) (userId a)) = false ->
   effectDeps a = Some (userId a)) /\
  (effectDeps a <> Some (userId a) ->
   forall i u st, socket_view a !! i = Some (u, st) ->
     st = CLOSING \/ st = CLOSED).

(** A handler is quiet when it leaves the identity, the current socket, the
    page address, the connect effect and every socket's address and state
    as they are. *)
Definition quiet (h : M unit) : Prop :=
  forall a,
    userId (final (h a)) = userId a /\
    wsRef (final (h a)) = wsRef a /\
    location (final (h a)) = location a /\
    effectDeps (final (h a)) = effectDeps a /\
    socket_view (final (h a)) = socket_view a.

(** The tokens of the text [JSON_stringify] writes for the members of an
    object. *)
Fixpoint members_tokens (props : list (jstring * jstring)) : list JSON.token :=
  match props with
  | [] => []
  | [(k, v)] => [JSON.TString k; JSON.TColon; JSON.TString v]
  | (k, v) :: rest =>
      [JSON.TString k; JSON.TColon; JSON.TString v; JSON.TComma] ++ members_tokens rest
  end.

(** ** The rest of [App]: session list, sidebar and keyboard

    The cells of the component that the record [App] above leaves out; the
    field [core] of a page holds that record. *)

(** [sidebarTab]: ['sessions' | 'memories'] *)
Inductive SidebarTab : Type := TabSessions | TabMemories.

(** What the handlers of the page do besides calling the setters and
    sockets of [effect]. *)
Inductive page_effect : Type :=
| PPreventDefault                       (* e.preventDefault() *)
| PFocusInput                           (* inputRef.current?.focus() *)
| PConsoleError (msg : jstring)
| PSetSessions (v : value)
| PSetShowSidebar (b : bool)
| PToggleSidebar                        (* setShowSidebar(prev => !prev) *)
| PSetSidebarTab (t : SidebarTab).

Record Page : Type := mkPage {
  core : App;
  sessions : value;               (* useState<Session[]>: what the server sent *)
  showSidebar : bool;
  sidebarTab : SidebarTab;
  page_log : list page_effect     (* oldest first *)
}.

Definition plogged (e : page_effect) (p : Page) : Page :=
  mkPage (core p) (sessions p) (showSidebar p) (sidebarTab p) (page_log p ++ [e]).

(** A handler of the core, run on the page. *)
Definition on_app (h : M unit) (p : Page) : Page :=
  mkPage (final (h (core p))) (sessions p) (showSidebar p) (sidebarTab p) (page_log p).

Definition setSessions (v : value) (p : Page) : Page :=
  plogged (PSetSessions v)
    (mkPage (core p) v (showSidebar p) (sidebarTab p) (page_log p)).

Definition setShowSidebar (b : bool) (p : Page) : Page :=
  plogged (PSetShowSidebar b)
    (mkPage (core p) (sessions p) b (sidebarTab p) (page_log p)).

(** [setShowSidebar(prev => !prev)] *)
Definition toggleShowSidebar (p : Page) : Page :=
  plogged PToggleSidebar
    (mkPage (core p) (sessions p) (negb (showSidebar p)) (sidebarTab p) (page_log p)).

Definition setSidebarTab (t : SidebarTab) (p : Page) : Page :=
  plogged (PSetSidebarTab t)
    (mkPage (core p) (sessions p) (showSidebar p) t (page_log p)).

(** React renders the page after a handler and runs the connect effect. *)
Definition render (p : Page) : Page := on_app run_effects p.

(** The page when [App] has mounted. *)
Definition page_mount (loc : Location) (random36 : jstring) : Page :=
  mkPage (mount loc random36) (VArray []) false TabSessions [].

(** What the [try] block of [fetchSessions] computes from the response:
    [None] when [fetch] rejects (no response), when the body is not JSON
    ([response.json()] rejects) or when the body is [null] (reading
    [data.sessions] throws); otherwise [data.sessions || []]. *)
Definition fetched_sessions (response : option jstring) : option value :=
  body ← response;
  data ← JSON.parse body;
  if nullish data then None
  else Some (js_or (member data (str "sessions")) (VArray [])).

(** [fetchSessions] (lines 36-44) from the moment the response (or the
    failure) is there: [setSessions] in the [try] block, [console.error] in the
    [catch]. *)
Definition fetchSessions_done (response : option jstring) (p : Page) : Page :=
  match fetched_sessions response with
  | Some v => render (setSessions v p)
  | None => plogged (PConsoleError (str "Failed to fetch sessions:")) p
  end.

(** A [keydown] event, and the tag of [document.activeElement] when it is
    dispatched ([None] when no element is active). *)
Record KeyboardEvent : Type := mkKey {
  ctrlKey : bool;
  metaKey : bool;
  shiftKey : bool;
  key : jstring
}.

(** The listener of [App] for [keydown] on [window] (lines 111-144): five
    [if] statements, one after the other.  [random36] is what
    [Math.random().toString(36)] returns if it is reached. *)
Definition handleKeyDown
    (e : KeyboardEvent) (activeTag : option jstring) (random36 : jstring)
    (p : Page) : Page :=
  let p :=
    if (ctrlKey e || metaKey e) && bool_decide (key e = str "h")
    then toggleShowSidebar (plogged PPreventDefault p)
    else p in
  let p :=
    if (ctrlKey e || metaKey e) && shiftKey e && bool_decide (key e = str "S")
    then setSidebarTab TabSessions (setShowSidebar true (plogged PPreventDefault p))
    else p in
  let p :=
    if (ctrlKey e || metaKey e) && shiftKey e && bool_decide (key e = str "M")
    then setSidebarTab TabMemories (setShowSidebar true (plogged PPreventDefault p))
    else p in
  let p :=
    if (ctrlKey e || metaKey e) && bool_decide (key e = str "n")
    then on_app (switchSession (random_id random36)) (plogged PPreventDefault p)
    else p in
  if bool_decide (key e = str "/")
     && negb (bool_decide (activeTag = Some (str "TEXTAREA")))
     && negb (bool_decide (activeTag = Some (str "INPUT")))
  then plogged PFocusInput (plogged PPreventDefault p)
  else p.

(** The listener of [Sidebar] for [keydown] on [window] (Sidebar.tsx lines
    152-156); [isOpen] is the value of [showSidebar] at the last render. *)
Definition sidebar_handleKeyDown (isOpen : bool) (e : KeyboardEvent) (p : Page) : Page :=
  if bool_decide (key e = str "Escape") && isOpen
  then setShowSidebar false p
  else p.

(** A [keydown] on [window]: both listeners run, then React renders.
    [sidebar_first] tells which of the two was registered first. *)
Definition keydown
    (sidebar_first : bool) (e : KeyboardEvent) (activeTag : option jstring)
    (random36 : jstring) (p : Page) : Page :=
  let isOpen := showSidebar p in
  render
    (if sidebar_first
     then handleKeyDown e activeTag random36 (sidebar_handleKeyDown isOpen e p)
     else sidebar_handleKeyDown isOpen e (handleKeyDown e activeTag random36 p)).

(** The [keydown] handler of the message box (InputArea, [handleKeyDown]):
    plain Enter submits, and the default action (a new line) is
    prevented. *)
Definition input_handleKeyDown (e : KeyboardEvent) (clk : Clock) (p : Page) : Page :=
  if bool_decide (key e = str "Enter") && negb (shiftKey e)
  then render (on_app (sendMessage clk) (plogged PPreventDefault p))
  else p.

(** The calls of [e.preventDefault()] among some effects. *)
Definition preventDefault_calls (l : list page_effect) : nat :=
  length (List.filter (fun x => match x with PPreventDefault => true | _ => false end) l).

(** ** The session browser (SessionBrowser.tsx)

    The message of a stored session is whatever object the server sent. *)

Definition icon_tool_call : jstring := [55357; 56615].      (* U+1F527, wrench *)
Definition icon_tool_response : jstring := [55357; 56548].  (* U+1F4E4, outbox *)
Definition icon_user : jstring := [55357; 56420].           (* U+1F464, bust *)
Definition icon_assistant : jstring := [55358; 56598].      (* U+1F916, robot *)

(** [getMessageIcon] (lines 121-127); [None] is the [TypeError] of reading
    a property of [null]. *)
Definition getMessageIcon (msg : value) : option jstring :=
  if nullish msg then None
  else if ToBoolean (member msg (str "is_tool_call")) then Some icon_tool_call
  else if ToBoolean (member msg (str "is_tool_response")) then Some icon_tool_response
  else if strict_eq_str (member msg (str "role")) (str "user") then Some icon_user
  else if strict_eq_str (member msg (str "author")) (str "user") then Some icon_user
  else Some icon_assistant.

(** [getMessageClass] (lines 129-133). *)
Definition getMessageClass (msg : value) : option jstring :=
  if nullish msg then None
  else if ToBoolean (member msg (str "is_tool_call"))
          || ToBoolean (member msg (str "is_tool_response")) then Some (str "tool")
  else if strict_eq_str (member msg (str "role")) (str "user")
          || strict_eq_str (member msg (str "author")) (str "user") then Some (str "user")
  else Some (str "assistant").

(** The cells of [SessionBrowser] that [handleBack] reads and writes; a
    selection is a string or [null]. *)
Record Browser : Type := mkBrowser {
  selectedUser : value;
  userSessions : value;
  selectedSession : value;
  browser_messages : value
}.

(** [handleBack] (lines 102-110). *)
Definition handleBack (b : Browser) : Browser :=
  if ToBoolean (selectedSession b)
  then mkBrowser (selectedUser b) (userSessions b) VNull (VArray [])
  else if ToBoolean (selectedUser b)
  then mkBrowser VNull (VArray []) (selectedSession b) (browser_messages b)
  else b.

(** Which level the heading names (lines 146-150). *)
Inductive BrowserLevel : Type := LevelUsers | LevelSessions | LevelMessages.

Definition browser_level (b : Browser) : BrowserLevel :=
  if ToBoolean (selectedSession b) then LevelMessages
  else if ToBoolean (selectedUser b) then LevelSessions
  else LevelUsers.

(** * Properties *)

(** ** What [JSON.parse] accepts *)

Example parse_typing_frame :
  JSON.parse Scenario.typing_off
    = Some (VObject [(str "type", VString (str "typing"));
                     (str "typing", VBool false)]).
Proof. reflexivity. Qed.

Example parse_nested :
  JSON.parse (wire " [1, -0.5e+3, true, null, 'a\n\u0041', {'k': []}] ")
    = Some (VArray [VNumber false 1 0; VNumber true 5 2; VBool true; VNull;
                    VString [97; 10; 65]; VObject [(str "k", VArray [])]]).
Proof. reflexivity. Qed.

Example parse_rejects :
  map JSON.parse
      [Scenario.not_json; str ""; str "01"; str "1."; str "[1,]"; str "nul";
       wire "{'a':1,}"; wire "{'a' 1}"; wire "'abc"; str "null null"]
    = [None; None; None; None; None; None; None; None; None; None].
Proof. reflexivity. Qed.

(** A key written twice keeps its last value. *)
Example parse_duplicate_key :
  (fun data => member data (str "type"))
    <$> JSON.parse (wire "{'type':'tool','type':'typing'}")
    = Some (VString (str "typing")).
Proof. reflexivity. Qed.

(** An event of a kind the handler does not know is ignored. *)
Example unknown_kind_ignored :
  onmessage Scenario.ping_frame Scenario.clk Scenario.sent_ping
    = Ok tt Scenario.sent_ping.
Proof. reflexivity. Qed.

(** A frame that is the JSON text [null] makes the handler throw on its
    first property read. *)
Example null_frame_throws :
  onmessage (str "null") Scenario.clk Scenario.sent_ping
    = Throw TypeError Scenario.sent_ping.
Proof. reflexivity. Qed.

(** The scenario of the specification: ping, then typing off and pong. *)
Example scenario_ping_pong :
  timeline Scenario.sent_ping = [(VString (str "user"), VString (str "ping"))] /\
  isTyping Scenario.sent_ping = VBool true /\
  timeline Scenario.answered
    = [(VString (str "user"), VString (str "ping"));
       (VString (str "assistant"), VString (str "pong"))] /\
  isTyping Scenario.answered = VBool false.
Proof. vm_compute. repeat split. Qed.

(** ** The monad and the connect effect *)

Ltac run_M :=
  cbv beta iota zeta delta [mbind mret M_bind M_ret gets modify throw final].

Ltac conjs := repeat split; reflexivity.

Lemma close_socket_idemp (s : WebSocket) :
  close_socket (close_socket s) = close_socket s.
Proof. destruct s as [u [] q]; reflexivity. Qed.

Lemma alter_close_socket_idemp (ws : nat) (l : list WebSocket) :
  alter close_socket ws (alter close_socket ws l) = alter close_socket ws l.
Proof.
  rewrite list_alter_alter_eq.
  apply list_alter_ext; [|reflexivity].
  intros s _. apply close_socket_idemp.
Qed.

(** When the effect has run for the current [userId], rendering again runs
    nothing. *)
Lemma run_effects_synced (a : App) :
  effectDeps a = Some (userId a) -> run_effects a = Ok tt a.
Proof.
  intros Hdeps. unfold run_effects. run_M. rewrite Hdeps.
  rewrite bool_decide_eq_true_2 by reflexivity. reflexivity.
Qed.

(** The effect never touches the Timeline, the typing flag, the input
    fields or the identity. *)
Lemma run_effects_frame (a : App) :
  let a' := final (run_effects a) in
  messages a' = messages a /\ isTyping a' = isTyping a /\
  input a' = input a /\ userId a' = userId a /\ newUserId a' = newUserId a.
Proof.
  destruct a as [ms inp ty conn uid picker nuid r socks deps loc lg].
  unfold run_effects, connect, connect_cleanup, new_WebSocket, ws_close.
  run_M. simpl. destruct deps as [prev|].
  - case_bool_decide; [conjs|].
    destruct r; simpl; destruct (has_fragment _); simpl; conjs.
  - destruct r; simpl; destruct (has_fragment _); simpl; conjs.
Qed.

(** After a turn of the event loop whose effects returned, the effect has
    run for the current [userId]. *)
Lemma dispatch_synced (a a' : App) :
  run_effects a = Ok tt a' -> effectDeps a' = Some (userId a').
Proof.
  destruct a as [ms inp ty conn uid picker nuid r socks deps loc lg].
  unfold run_effects, connect, connect_cleanup, new_WebSocket, ws_close.
  run_M. simpl. destruct deps as [prev|].
  - case_bool_decide; [intros [= <-]; simpl; congruence|].
    destruct r; simpl; destruct (has_fragment _); simpl;
      intros [= <-]; reflexivity.
  - destruct r; simpl; destruct (has_fragment _); simpl;
      intros [= <-]; reflexivity.
Qed.

Lemma dispatch_synced_eq (h : M unit) (a : App) :
  effectDeps (final (h a)) = Some (userId (final (h a))) ->
  dispatch h a = final (h a).
Proof. intros H. unfold dispatch. rewrite run_effects_synced; auto. Qed.

(** When the effect has not run for the current [userId], rendering runs
    it: the current socket is closed, and then either the constructor
    rejects the address and nothing else happens, or a connecting socket is
    appended and becomes the current one. *)
Lemma run_effects_rerun (b : App) :
  effectDeps b <> Some (userId b) ->
  sockets (final (run_effects b))
    = match wsRef b with
      | Some old => alter close_socket old (sockets b)
      | None => sockets b
      end
      ++ (if has_fragment (ws_url (location b) (userId b)) then []
          else [mkWebSocket (ws_url (location b) (userId b)) CONNECTING []]) /\
  wsRef (final (run_effects b))
    = (if has_fragment (ws_url (location b) (userId b)) then wsRef b
       else Some (length (sockets b))) /\
  effectDeps (final (run_effects b))
    = (if has_fragment (ws_url (location b) (userId b)) then effectDeps b
       else Some (userId b)) /\
  location (final (run_effects b)) = location b.
Proof.
  destruct b as [ms inp ty conn uid picker nuid r socks deps loc lg].
  cbn [effectDeps userId wsRef sockets location]. intros Hne.
  unfold run_effects, connect, connect_cleanup, new_WebSocket, ws_close.
  run_M. cbn [effectDeps userId].
  destruct deps as [prev|].
  - rewrite bool_decide_eq_false_2 by congruence.
    destruct r as [old|]; cbn [wsRef location sockets logged with_sockets];
      destruct (has_fragment (ws_url loc uid));
      cbn [wsRef location sockets effectDeps logged with_sockets with_wsRef
           with_effectDeps];
      rewrite ?alter_close_socket_idemp, ?length_alter, ?app_nil_r; repeat split.
  - destruct r as [old|]; cbn [wsRef location sockets logged with_sockets];
      destruct (has_fragment (ws_url loc uid));
      cbn [wsRef location sockets effectDeps logged with_sockets with_wsRef
           with_effectDeps];
      rewrite ?length_alter, ?app_nil_r; repeat split.
Qed.

(** What the effect does to the sockets depends only on the identity, the
    current socket, the sockets, the page address and the identity the
    effect last ran for. *)
Lemma run_effects_sockets_ext (b1 b2 : App) :
  userId b1 = userId b2 -> effectDeps b1 = effectDeps b2 ->
  wsRef b1 = wsRef b2 -> sockets b1 = sockets b2 -> location b1 = location b2 ->
  sockets (final (run_effects b1)) = sockets (final (run_effects b2)) /\
  wsRef (final (run_effects b1)) = wsRef (final (run_effects b2)).
Proof.
  intros Hu Hd Hr Hs Hl.
  destruct (decide (effectDeps b1 = Some (userId b1))) as [Hsync|Hrun].
  - rewrite (run_effects_synced b1) by exact Hsync.
    rewrite (run_effects_synced b2) by congruence.
    split; assumption.
  - destruct (run_effects_rerun b1 Hrun) as (Hs1 & Hr1 & _ & _).
    destruct (run_effects_rerun b2) as (Hs2 & Hr2 & _ & _); [congruence|].
    rewrite Hs1, Hr1, Hs2, Hr2, Hu, Hr, Hs, Hl. split; reflexivity.
Qed.

(** ** Reading a frame *)


Lemma strict_eq_str_false (v : value) (s : jstring) :
  v <> VString s -> strict_eq_str v s = false.
Proof.
  intros Hne. destruct v; try reflexivity.
  simpl. apply bool_decide_eq_false_2. congruence.
Qed.

Lemma strict_eq_str_inv (v : value) (s : jstring) :
  strict_eq_str v s = true -> v = VString s.
Proof.
  destruct v; try discriminate. simpl. intros H.
  apply bool_decide_eq_true_1 in H. congruence.
Qed.

Lemma strict_eq_str_other (s t : jstring) :
  s <> t -> strict_eq_str (VString s) t = false.
Proof. intros Hne. apply strict_eq_str_false. congruence. Qed.

Lemma message_not_typing : str "message" <> str "typing".
Proof. vm_compute. discriminate. Qed.
Lemma tool_not_typing : str "tool" <> str "typing".
Proof. vm_compute. discriminate. Qed.

(** A property that is absent reads as [undefined]; the empty string and
    [undefined] are falsy. *)
Lemma member_missing (props : list (jstring * value)) (k : jstring) :
  lookup_prop k props = None -> member (VObject props) k = VUndefined.
Proof. intros H. simpl. rewrite H. reflexivity. Qed.

Lemma member_present (props : list (jstring * value)) (k : jstring) (v : value) :
  lookup_prop k props = Some v -> member (VObject props) k = v.
Proof. intros H. simpl. rewrite H. reflexivity. Qed.

(** What the handler does with a frame depends on the frame alone: the state
    it leaves is the state it found, with the entry of [event_entry] at the
    end of the Timeline and possibly a new typing flag.  It never touches a
    socket, the identity or the connect effect. *)
Lemma onmessage_frame (frame : jstring) (clk : Clock) (a : App) :
  let a' := final (onmessage frame clk a) in
  messages a' = messages a ++ option_list (event_entry frame clk) /\
  sockets a' = sockets a /\ wsRef a' = wsRef a /\
  userId a' = userId a /\ effectDeps a' = effectDeps a.
Proof.
  unfold onmessage, event_entry, JSON_parse,
    setMessages_append, setIsTyping.
  destruct (JSON.parse frame) as [data|]; run_M;
    [|simpl; rewrite app_nil_r; conjs].
  destruct data as [| |b|neg m e|s|elems|props];
    try (simpl; rewrite app_nil_r; conjs).
  cbn [nullish].
  set (data := VObject props). set (ty := member data (str "type")).
  destruct (ToBoolean (member data (str "content")));
    rewrite ?andb_true_r, ?andb_false_r.
  - destruct (strict_eq_str ty (str "message")); [conjs|].
    destruct (strict_eq_str ty (str "typing")) eqn:Hty.
    + apply strict_eq_str_inv in Hty. rewrite Hty.
      rewrite (strict_eq_str_other _ _ (not_eq_sym tool_not_typing)).
      simpl; rewrite app_nil_r; conjs.
    + destruct (strict_eq_str ty (str "tool"));
        [conjs|simpl; rewrite app_nil_r; conjs].
  - destruct (strict_eq_str ty (str "typing"));
      simpl; rewrite app_nil_r; conjs.
Qed.


(** The Timeline and the typing flag after a turn are those the handler
    left. *)
Lemma dispatch_view (h : M unit) (a : App) :
  messages (dispatch h a) = messages (final (h a)) /\
  isTyping (dispatch h a) = isTyping (final (h a)).
Proof.
  unfold dispatch.
  destruct (run_effects_frame (final (h a))) as (Hm & Ht & _). auto.
Qed.

(** ** Inbound frames *)

(** C1.  A frame that is not well-formed JSON is not dropped quietly:
    [JSON.parse] throws a [SyntaxError] that [ws.onmessage] lets escape.
    The exception is raised before any setter is called, so the handler
    leaves the state as it found it, and after the turn the Timeline and
    the typing flag are what they were. *)
Theorem malformed_frame_throws (frame : jstring) (clk : Clock) (a : App) :
  JSON.parse frame = None ->
  onmessage frame clk a = Throw SyntaxError a /\
  messages (onRemoteEvent frame clk a) = messages a /\
  isTyping (onRemoteEvent frame clk a) = isTyping a.
Proof.
  intros Hparse.
  assert (Hthrow : onmessage frame clk a = Throw SyntaxError a).
  { unfold onmessage, JSON_parse. rewrite Hparse. reflexivity. }
  split; [exact Hthrow|].
  unfold onRemoteEvent.
  destruct (dispatch_view (onmessage frame clk) a) as [Hm Ht].
  rewrite Hm, Ht, Hthrow. split; reflexivity.
Qed.

Lemma malformed_frame_throws_witness :
  JSON.parse Scenario.not_json = None /\
  onmessage Scenario.not_json Scenario.clk Scenario.sent_ping
    = Throw SyntaxError Scenario.sent_ping.
Proof.
  split; [reflexivity|].
  apply (malformed_frame_throws Scenario.not_json Scenario.clk Scenario.sent_ping).
  reflexivity.
Defined.

(** C10.  A message or tool frame whose content is missing or is the empty
    string changes nothing: the handler returns without calling a setter, so
    no entry is appended and the typing flag keeps its value, also when it
    was [true]. *)
Theorem empty_content_is_ignored
    (frame : jstring) (props : list (jstring * value)) (clk : Clock) (a : App) :
  JSON.parse frame = Some (VObject props) ->
  member (VObject props) (str "type") = VString (str "message") \/
  member (VObject props) (str "type") = VString (str "tool") ->
  lookup_prop (str "content") props = None \/
  lookup_prop (str "content") props = Some (VString []) ->
  onmessage frame clk a = Ok tt a /\
  messages (onRemoteEvent frame clk a) = messages a /\
  isTyping (onRemoteEvent frame clk a) = isTyping a.
Proof.
  intros Hparse Hty Hcontent.
  assert (Hfalsy : ToBoolean (member (VObject props) (str "content")) = false).
  { destruct Hcontent as [H|H];
      [rewrite (member_missing _ _ H) | rewrite (member_present _ _ _ H)];
      reflexivity. }
  assert (Hrun : onmessage frame clk a = Ok tt a).
  { unfold onmessage, JSON_parse. rewrite Hparse. run_M. cbn [nullish].
    rewrite Hfalsy, !andb_false_r.
    destruct Hty as [-> | ->].
    - rewrite (strict_eq_str_other _ _ message_not_typing). reflexivity.
    - rewrite (strict_eq_str_other _ _ tool_not_typing). reflexivity. }
  split; [exact Hrun|].
  unfold onRemoteEvent.
  destruct (dispatch_view (onmessage frame clk) a) as [Hm Ht].
  rewrite Hm, Ht, Hrun. split; reflexivity.
Qed.

Lemma empty_content_is_ignored_witness :
  isTyping Scenario.sent_ping = VBool true /\
  isTyping (onRemoteEvent Scenario.empty_message Scenario.clk Scenario.sent_ping)
    = isTyping Scenario.sent_ping.
Proof.
  split; [reflexivity|].
  apply (empty_content_is_ignored Scenario.empty_message
           [(str "type", VString (str "message")); (str "content", VString [])]
           Scenario.clk Scenario.sent_ping).
  - reflexivity.
  - left. reflexivity.
  - right. reflexivity.
Defined.




(** ** Order of the Timeline *)




(** ** Sending *)

Lemma socket_open_not_closed (a : App) (ws : nat) :
  wsRef a = Some ws -> socket_state a ws = Some OPEN -> not_open a = false.
Proof.
  unfold not_open, current_socket, socket_state. intros -> Hopen. simpl.
  destruct (sockets a !! ws) as [s|]; [|discriminate].
  simpl in Hopen. injection Hopen as ->. reflexivity.
Qed.

(** The frame of a message action is the object with the two members
    [type] and [content], the content quoted. *)
Lemma message_frame_shape (content' : jstring) :
  JSON_stringify [(str "type", str "message"); (str "content", content')]
    = wire "{'type':'message','content':" ++ quote content' ++ str "}".
Proof. reflexivity. Qed.

(** C5 as stated fails: the entry and the frame do not carry the submitted
    text.  With [" ping "] in the input field, the entry appended and the
    frame sent carry ["ping"]. *)
Lemma sendMessage_submitted_text_counterexample :
  input (deliver (TypeInput (str " ping ")) Scenario.opened) = str " ping " /\
  timeline (appendLocal Scenario.clk
              (deliver (TypeInput (str " ping ")) Scenario.opened))
    = [(VString (str "user"), VString (str "ping"))] /\
  sent <$> sockets (appendLocal Scenario.clk
                      (deliver (TypeInput (str " ping ")) Scenario.opened))
             !! 0%nat
    = Some [wire "{'type':'message','content':'ping'}"] /\
  str "ping" <> str " ping ".
Proof. vm_compute. repeat split. discriminate. Qed.

(** C5, as the code has it.  With text left after trimming and the current
    socket open, [sendMessage] returns normally and has made, in this order,
    exactly these calls: append to the end of the Timeline the user entry
    carrying the text of the input field with the white space at both ends
    removed, send the message frame with that same trimmed text on the
    socket, empty the input field, set the typing flag to [true].  After the
    turn the Timeline ends with the user entry and the typing flag is
    [true]. *)
Theorem sendMessage_effects_in_order (clk : Clock) (a : App) (ws : nat) :
  trim (input a) <> [] ->
  wsRef a = Some ws ->
  socket_state a ws = Some OPEN ->
  let content' := trim (input a) in
  let userMessage :=
    mkMessage (fresh_message_id clk) (VString (str "user")) (VString content')
              (DateNow (new_Date clk)) in
  let data := wire "{'type':'message','content':" ++ quote content' ++ str "}" in
  exists a',
    sendMessage clk a = Ok tt a' /\
    log a' = log a ++ [EAppendMessage userMessage; ESend ws data;
                       ESetInput []; ESetIsTyping (VBool true)] /\
    sent <$> sockets a' !! ws = (fun s => sent s ++ [data]) <$> sockets a !! ws /\
    messages (appendLocal clk a) = messages a ++ [userMessage] /\
    isTyping (appendLocal clk a) = VBool true.
Proof.
  intros Htext Href Hopen.
  pose proof (socket_open_not_closed a ws Href Hopen) as Hguard.
  unfold socket_state in Hopen.
  destruct (sockets a !! ws) as [s|] eqn:Hs; [|discriminate].
  injection Hopen as Hst.
  cbv zeta. rewrite <- message_frame_shape.
  unfold appendLocal.
  destruct (dispatch_view (sendMessage clk) a) as [Hm Ht]. rewrite Hm, Ht.
  clear Hm Ht.
  unfold sendMessage, setMessages_append, setInput, setIsTyping, ws_send.
  run_M. rewrite Hguard.
  destruct (trim (input a)) as [|c rest]; [contradiction|].
  cbn [orb wsRef logged with_messages]. rewrite Href.
  cbn [sockets logged with_messages]. rewrite Hs, Hst.
  eexists. split; [reflexivity|].
  cbn [sockets log messages isTyping logged with_messages with_input
       with_isTyping with_sockets].
  split; [rewrite <- !app_assoc; reflexivity|].
  split; [|split; reflexivity].
  rewrite list_lookup_alter_eq, Hs. reflexivity.
Qed.

Lemma sendMessage_effects_in_order_witness :
  timeline (appendLocal Scenario.clk (deliver (TypeInput (str " ping ")) Scenario.opened))
    = [(VString (str "user"), VString (str "ping"))] /\
  isTyping (appendLocal Scenario.clk (deliver (TypeInput (str " ping ")) Scenario.opened))
    = VBool true.
Proof.
  destruct (sendMessage_effects_in_order Scenario.clk
              (deliver (TypeInput (str " ping ")) Scenario.opened) 0%nat)
    as (a' & _ & _ & _ & Hm & Ht).
  - vm_compute. discriminate.
  - reflexivity.
  - reflexivity.
  - unfold timeline. rewrite Hm. split; [reflexivity|exact Ht].
Defined.

(** C6.  With nothing left after trimming, or with no socket, or with a
    socket that is connecting, closing or closed, [sendMessage] returns
    normally without having called anything: the state (Timeline, typing
    flag, input, every socket's queue, the log of calls) is the one it
    found. *)
Theorem sendMessage_noop (clk : Clock) (a : App) :
  trim (input a) = [] \/
  wsRef a = None \/
  (exists ws st, wsRef a = Some ws /\ socket_state a ws = Some st /\ st <> OPEN) ->
  sendMessage clk a = Ok tt a /\
  (effectDeps a = Some (userId a) -> appendLocal clk a = a).
Proof.
  intros Hguard.
  assert (Hrun : sendMessage clk a = Ok tt a).
  { unfold sendMessage. run_M.
    destruct Hguard as [Hempty | [Hnone | (ws & st & Href & Hst & Hne)]].
    - rewrite Hempty. reflexivity.
    - unfold not_open, current_socket. rewrite Hnone. simpl.
      rewrite orb_true_r. reflexivity.
    - unfold not_open, current_socket. rewrite Href. simpl.
      unfold socket_state in Hst.
      destruct (sockets a !! ws) as [s|]; [|discriminate].
      simpl in Hst. injection Hst as ->.
      destruct st; try (rewrite orb_true_r; reflexivity).
      congruence. }
  split; [exact Hrun|].
  intros Hs. unfold appendLocal. rewrite dispatch_synced_eq; rewrite Hrun; auto.
Qed.

Lemma sendMessage_noop_witness :
  input Scenario.typed_when_closed = str "hello" /\
  socket_state Scenario.typed_when_closed 0 = Some CLOSED /\
  sendMessage Scenario.clk Scenario.typed_when_closed
    = Ok tt Scenario.typed_when_closed /\
  wsRef Scenario.typed_when_connecting = Some 1%nat /\
  socket_state Scenario.typed_when_connecting 1 = Some CONNECTING /\
  sendMessage Scenario.clk Scenario.typed_when_connecting
    = Ok tt Scenario.typed_when_connecting.
Proof.
  split; [reflexivity|]. split; [reflexivity|].
  split; [|split; [reflexivity|split; [reflexivity|]]].
  - apply (sendMessage_noop Scenario.clk Scenario.typed_when_closed).
    right. right. exists 0%nat, CLOSED.
    split; [reflexivity|]. split; [reflexivity|discriminate].
  - apply (sendMessage_noop Scenario.clk Scenario.typed_when_connecting).
    right. right. exists 1%nat, CONNECTING.
    split; [reflexivity|]. split; [reflexivity|discriminate].
Defined.

(** ** Forgetting *)

Lemma forget_frame_shape :
  JSON_stringify [(str "type", str "forget")] = wire "{'type':'forget'}".
Proof. reflexivity. Qed.

(** C2 as stated fails twice over: with the connection dropped, [forget]
    leaves the Timeline as it is; with the connection open, it leaves the
    typing flag [true]. *)
Lemma forget_counterexample :
  socket_state Scenario.dropped 0 = Some CLOSED /\
  timeline (forget Scenario.dropped)
    = [(VString (str "user"), VString (str "ping"))] /\
  socket_state Scenario.sent_ping 0 = Some OPEN /\
  isTyping (forget Scenario.sent_ping) = VBool true.
Proof. vm_compute. repeat split. Qed.

(** C2, as the code has it.  With the current socket open, [forgetSession]
    sends the forget frame and then empties the Timeline, and does not touch
    the typing flag.  With no socket, or a socket that is connecting,
    closing or closed, it returns without having called anything. *)
Theorem forget_clears_only_when_open (a : App) :
  (forall ws, wsRef a = Some ws -> socket_state a ws = Some OPEN ->
     exists a',
       forgetSession a = Ok tt a' /\
       log a' = log a ++ [ESend ws (wire "{'type':'forget'}"); EClearMessages] /\
       messages (forget a) = [] /\
       isTyping (forget a) = isTyping a) /\
  (not_open a = true ->
     forgetSession a = Ok tt a /\
     messages (forget a) = messages a /\
     isTyping (forget a) = isTyping a).
Proof.
  split.
  - intros ws Href Hopen.
    pose proof (socket_open_not_closed a ws Href Hopen) as Hguard.
    unfold socket_state in Hopen.
    destruct (sockets a !! ws) as [s|] eqn:Hs; [|discriminate].
    injection Hopen as Hst.
    rewrite <- forget_frame_shape. unfold forget.
    destruct (dispatch_view forgetSession a) as [Hm Ht]. rewrite Hm, Ht.
    clear Hm Ht.
    unfold forgetSession, setMessages_empty, ws_send. run_M.
    rewrite Hguard, Href, Hs, Hst.
    eexists. split; [reflexivity|].
    cbn [log messages isTyping logged with_messages with_sockets].
    split; [rewrite <- !app_assoc; reflexivity|]. split; reflexivity.
  - intros Hguard.
    assert (Hrun : forgetSession a = Ok tt a).
    { unfold forgetSession. run_M. rewrite Hguard. reflexivity. }
    split; [exact Hrun|]. unfold forget.
    destruct (dispatch_view forgetSession a) as [Hm Ht].
    rewrite Hm, Ht, Hrun. split; reflexivity.
Qed.

Lemma forget_clears_only_when_open_witness :
  messages (forget Scenario.answered) = [] /\
  messages (forget Scenario.dropped) = messages Scenario.dropped.
Proof.
  split.
  - destruct (forget_clears_only_when_open Scenario.answered) as [Hopen _].
    destruct (Hopen 0%nat eq_refl eq_refl) as (a' & _ & _ & Hm & _).
    exact Hm.
  - destruct (forget_clears_only_when_open Scenario.dropped) as [_ Hclosed].
    destruct (Hclosed eq_refl) as (_ & Hm & _). exact Hm.
Defined.

(** ** Switching the session *)

Lemma switchSession_run (newId : jstring) (a : App) :
  switchSession newId a
    = Ok tt (logged (ESetShowSessionPicker false)
               (with_showSessionPicker false
                  (logged (ESetUserId newId)
                     (with_userId newId
                        (logged EClearMessages (with_messages (fun _ => []) a)))))).
Proof. reflexivity. Qed.

(** C8 as stated fails: a switch made while the typing flag is [true]
    leaves it [true]. *)
Lemma switchTo_typing_counterexample :
  isTyping Scenario.sent_ping = VBool true /\
  isTyping (switchTo (str "bob") Scenario.sent_ping) = VBool true.
Proof. vm_compute. split; reflexivity. Qed.

(** C8, as the code has it.  After [switchTo] the Timeline is empty,
    whatever it held; the typing flag is the one from before the switch. *)
Theorem switchTo_clears_timeline (identity : jstring) (a : App) :
  messages (switchTo identity a) = [] /\
  isTyping (switchTo identity a) = isTyping a.
Proof.
  unfold switchTo.
  destruct (dispatch_view (switchSession identity) a) as [Hm Ht].
  rewrite Hm, Ht, switchSession_run. split; reflexivity.
Qed.

(** C3 as stated fails: switching to the identity that is already active
    empties the Timeline, but the socket stays open and no second socket is
    made; switching to another identity does both. *)
Lemma switchTo_same_identity_counterexample :
  userId Scenario.answered = str "web_abc123xyz" /\
  sockets (switchTo (str "web_abc123xyz") Scenario.answered)
    = sockets Scenario.answered /\
  socket_state (switchTo (str "web_abc123xyz") Scenario.answered) 0 = Some OPEN /\
  readyState <$> sockets (switchTo (str "bob") Scenario.answered)
    = [CLOSING; CONNECTING].
Proof. vm_compute. repeat split. Qed.

(** A switch to an identity with a [#]: the socket is closed and none is
    made. *)
Example switchTo_fragment_identity :
  readyState <$> sockets (switchTo (str "a#b") Scenario.answered) = [CLOSING] /\
  wsRef (switchTo (str "a#b") Scenario.answered) = Some 0%nat /\
  userId (switchTo (str "a#b") Scenario.answered) = str "a#b".
Proof. vm_compute. repeat split. Qed.

(** C3, as the code has it.  On a rendered state [switchTo] empties the
    Timeline and makes the given identity the active one.  When that
    identity is the one already active, the connect effect does not run: no
    socket is closed, none is made, [wsRef] is untouched.  When it differs
    the current socket is closed; then, if the address of the new socket is
    one the constructor accepts (it has no [#]), a new connecting socket
    for the new identity is made and becomes the current one; and if it is
    not, the constructor throws, no socket is made and [wsRef] still names
    the closed one. *)
Theorem switchTo_reconnects_only_on_change (identity : jstring) (a : App) :
  effectDeps a = Some (userId a) ->
  messages (switchTo identity a) = [] /\
  userId (switchTo identity a) = identity /\
  (identity = userId a ->
     sockets (switchTo identity a) = sockets a /\
     wsRef (switchTo identity a) = wsRef a) /\
  (identity <> userId a ->
   has_fragment (ws_url (location a) identity) = false ->
     sockets (switchTo identity a)
       = match wsRef a with
         | Some old => alter close_socket old (sockets a)
         | None => sockets a
         end ++ [mkWebSocket (ws_url (location a) identity) CONNECTING []] /\
     wsRef (switchTo identity a) = Some (length (sockets a))) /\
  (identity <> userId a ->
   has_fragment (ws_url (location a) identity) = true ->
     sockets (switchTo identity a)
       = match wsRef a with
         | Some old => alter close_socket old (sockets a)
         | None => sockets a
         end /\
     wsRef (switchTo identity a) = wsRef a).
Proof.
  intros Hs. unfold switchTo.
  destruct (dispatch_view (switchSession identity) a) as [Hm _].
  destruct (run_effects_frame (final (switchSession identity a)))
    as (_ & _ & _ & Hu & _).
  split; [rewrite Hm, switchSession_run; reflexivity|].
  split; [unfold dispatch; rewrite Hu, switchSession_run; reflexivity|].
  split; [|split].
  - intros Hsame. rewrite dispatch_synced_eq.
    + rewrite switchSession_run. split; reflexivity.
    + rewrite switchSession_run.
      cbn [final effectDeps userId logged with_showSessionPicker with_userId
           with_messages].
      congruence.
  - intros Hdiff Hfrag. unfold dispatch.
    destruct (run_effects_rerun (final (switchSession identity a)))
      as (Hsock & Href & _ & _).
    + rewrite switchSession_run.
      cbn [final effectDeps userId logged with_showSessionPicker with_userId
           with_messages].
      congruence.
    + rewrite Hsock, Href. rewrite switchSession_run.
      cbn [final wsRef sockets location userId logged with_showSessionPicker
           with_userId with_messages].
      rewrite Hfrag. split; reflexivity.
  - intros Hdiff Hfrag. unfold dispatch.
    destruct (run_effects_rerun (final (switchSession identity a)))
      as (Hsock & Href & _ & _).
    + rewrite switchSession_run.
      cbn [final effectDeps userId logged with_showSessionPicker with_userId
           with_messages].
      congruence.
    + rewrite Hsock, Href. rewrite switchSession_run.
      cbn [final wsRef sockets location userId logged with_showSessionPicker
           with_userId with_messages].
      rewrite Hfrag, app_nil_r. split; reflexivity.
Qed.

Lemma switchTo_reconnects_only_on_change_witness :
  wsRef (switchTo (str "web_abc123xyz") Scenario.answered) = Some 0%nat /\
  wsRef (switchTo (str "bob") Scenario.answered) = Some 1%nat.
Proof.
  destruct (switchTo_reconnects_only_on_change (str "web_abc123xyz")
              Scenario.answered eq_refl) as (_ & _ & Hsame & _).
  destruct (switchTo_reconnects_only_on_change (str "bob")
              Scenario.answered eq_refl) as (_ & _ & _ & Hother & _).
  split.
  - destruct (Hsame eq_refl) as [_ Hr]. rewrite Hr. reflexivity.
  - destruct Hother as [_ Hr]; [vm_compute; discriminate|reflexivity|].
    rewrite Hr. reflexivity.
Defined.

(** ** Creating a session *)

(** C9 as stated fails: with [" bob"] typed into the picker the new
    identity is ["bob"], the trimmed text, not the text as typed. *)
Lemma createNew_counterexample :
  newUserId Scenario.picked_bob = str " bob" /\
  userId (createNew (str "0.zzz") Scenario.picked_bob) = str "bob" /\
  userId (createNew (str "0.zzz") Scenario.picked_bob)
    <> newUserId Scenario.picked_bob.
Proof. vm_compute. repeat split. discriminate. Qed.

(** C9, as the code has it.  The new identity is the preferred id with the
    white space at both ends removed when that leaves something, and
    otherwise ["web_"] followed by at most nine code units of the random
    text, starting at its third.  [handleNewSession] is [switchSession] on
    that identity followed by emptying the preferred-id field; after the
    turn the identity is active, the Timeline is empty and the sockets are
    those that [switchTo] on that identity leaves. *)
Theorem createNew_identity (random36 : jstring) (a : App) :
  let identity :=
    match trim (newUserId a) with
    | [] => str "web_" ++ take 9 (drop 2 random36)
    | _ :: _ => trim (newUserId a)
    end in
  handleNewSession random36 a
    = (switchSession identity;; setNewUserId []) a /\
  userId (createNew random36 a) = identity /\
  messages (createNew random36 a) = [] /\
  newUserId (createNew random36 a) = [] /\
  sockets (createNew random36 a) = sockets (switchTo identity a) /\
  wsRef (createNew random36 a) = wsRef (switchTo identity a).
Proof.
  intros identity.
  assert (Hrun : handleNewSession random36 a
                 = (switchSession identity;; setNewUserId []) a).
  { unfold handleNewSession, identity, random_id, substr. run_M.
    destruct (trim (newUserId a)); reflexivity. }
  split; [exact Hrun|].
  unfold createNew, switchTo, dispatch. rewrite Hrun.
  set (b1 := final ((switchSession identity;; setNewUserId []) a)).
  set (b2 := final (switchSession identity a)).
  destruct (run_effects_frame b1) as (Hm & _ & _ & Hu & Hn).
  rewrite Hm, Hu, Hn.
  split; [reflexivity|]. split; [reflexivity|]. split; [reflexivity|].
  apply run_effects_sockets_ext; reflexivity.
Qed.


(** * Further properties of the session manager *)

(** ** One live socket *)

Lemma socket_view_alter_sent (ws : nat) (data : jstring) (l : list WebSocket) :
  (fun s => (url s, readyState s))
    <$> alter (fun s => mkWebSocket (url s) OPEN (sent s ++ [data])) ws l
  = (fun s => (url s, readyState s)) <$> l \/
  exists s, l !! ws = Some s /\ readyState s <> OPEN.
Proof.
  destruct (l !! ws) as [s|] eqn:Hs.
  - destruct (readyState s) eqn:Hst; try (right; exists s; split; congruence).
    left. apply list_eq. intros i. rewrite !list_lookup_fmap.
    destruct (decide (i = ws)) as [->|Hne].
    + rewrite list_lookup_alter_eq, Hs. simpl. rewrite Hst. reflexivity.
    + rewrite list_lookup_alter_ne by congruence. reflexivity.
  - left. f_equal. apply list_eq. intros i.
    destruct (decide (i = ws)) as [->|Hne].
    + rewrite list_lookup_alter_eq, Hs. reflexivity.
    + rewrite list_lookup_alter_ne by congruence. reflexivity.
Qed.

Lemma quiet_setter (f : App -> App) :
  (forall a, userId (f a) = userId a /\ wsRef (f a) = wsRef a /\
             location (f a) = location a /\ effectDeps (f a) = effectDeps a /\
             sockets (f a) = sockets a) ->
  quiet (modify f).
Proof.
  intros Hf a. destruct (Hf a) as (H1 & H2 & H3 & H4 & H5).
  unfold socket_view. simpl. rewrite H5. auto.
Qed.

Lemma quiet_onmessage (frame : jstring) (clk : Clock) : quiet (onmessage frame clk).
Proof.
  intros a.
  destruct (onmessage_frame frame clk a) as (_ & Hsock & Href & Hu & Hd).
  unfold socket_view. rewrite Hsock. repeat split; auto.
  unfold onmessage, JSON_parse, setMessages_append, setIsTyping.
  destruct (JSON.parse frame) as [data|]; run_M; [|reflexivity].
  destruct (nullish data); [reflexivity|].
  repeat match goal with |- context [if ?b then _ else _] => destruct b end;
    reflexivity.
Qed.

Lemma quiet_ws_send (ws : nat) (data : jstring) : quiet (ws_send ws data).
Proof.
  intros a. unfold ws_send.
  destruct (sockets a !! ws) as [s|] eqn:Hs; [|simpl; auto].
  destruct (readyState s) eqn:Hst; simpl; repeat split; auto.
  unfold socket_view. simpl.
  destruct (socket_view_alter_sent ws data (sockets a)) as [H|(s' & Hs' & Hne)];
    [exact H|congruence].
Qed.

Lemma quiet_bind (h : M unit) (k : M unit) :
  quiet h -> quiet k -> quiet (h;; k).
Proof.
  intros Hh Hk a. unfold mbind, M_bind.
  specialize (Hh a). destruct (h a) as [[] a1|e a1]; simpl in Hh.
  - specialize (Hk a1). destruct Hh as (H1 & H2 & H3 & H4 & H5).
    destruct Hk as (K1 & K2 & K3 & K4 & K5).
    repeat split; congruence.
  - exact Hh.
Qed.

Lemma quiet_ret : quiet (mret tt).
Proof. intros a. simpl. auto. Qed.

Lemma quiet_throw (e : error) : quiet (throw e).
Proof. intros a. simpl. auto. Qed.

Lemma quiet_sendMessage (clk : Clock) : quiet (sendMessage clk).
Proof.
  intros a. unfold sendMessage, setMessages_append, setInput, setIsTyping.
  run_M. destruct (_ || _); [simpl; auto|].
  cbn [wsRef logged with_messages].
  destruct (wsRef a) as [ws|] eqn:Hr; [|simpl; rewrite Hr; auto].
  match goal with |- context [ws_send ws ?d ?a0] =>
    pose proof (quiet_ws_send ws d a0) as Hq;
    destruct (ws_send ws d a0) as [[] a1|e a1]
  end; simpl in Hq; destruct Hq as (H1 & H2 & H3 & H4 & H5);
    unfold socket_view in *; simpl in *; rewrite ?H1, ?H2, ?H3, ?H4, ?H5; auto.
Qed.

Lemma quiet_forgetSession : quiet forgetSession.
Proof.
  intros a. unfold forgetSession, setMessages_empty. run_M.
  destruct (not_open a); [simpl; auto|].
  destruct (wsRef a) as [ws|] eqn:Hr; [|simpl; rewrite Hr; auto].
  match goal with |- context [ws_send ws ?d ?a0] =>
    pose proof (quiet_ws_send ws d a0) as Hq;
    destruct (ws_send ws d a0) as [[] a1|e a1]
  end; simpl in Hq; destruct Hq as (H1 & H2 & H3 & H4 & H5);
    unfold socket_view in *; simpl in *; rewrite ?H1, ?H2, ?H3, ?H4, ?H5; auto.
Qed.

Lemma socket_view_lookup (a : App) (i : nat) :
  socket_view a !! i = (fun s => (url s, readyState s)) <$> sockets a !! i.
Proof. unfold socket_view. apply list_lookup_fmap. Qed.

(** Tidiness does not mention the active identity: a handler that only
    changes [userId] keeps it. *)
Lemma sockets_tidy_ext (a b : App) :
  sockets_tidy a ->
  wsRef b = wsRef a -> location b = location a ->
  effectDeps b = effectDeps a -> socket_view b = socket_view a ->
  sockets_tidy b.
Proof.
  unfold sockets_tidy. intros H Hr Hl Hd Hv. rewrite Hr, Hl, Hd, Hv. exact H.
Qed.

(** What [close()] on the socket [old] does to the browser's view. *)
Lemma closed_view_lookup (old : nat) (l : list WebSocket) (i : nat) :
  match ((fun s => (url s, readyState s)) <$> l) !! i with
  | Some (u, st0) =>
      exists st,
        ((fun s => (url s, readyState s)) <$> alter close_socket old l) !! i
          = Some (u, st) /\
        (i = old -> st = CLOSING \/ st = CLOSED) /\
        (i <> old -> st = st0)
  | None =>
      ((fun s => (url s, readyState s)) <$> alter close_socket old l) !! i = None
  end.
Proof.
  rewrite !list_lookup_fmap.
  destruct (decide (i = old)) as [->|Hne].
  - rewrite list_lookup_alter_eq.
    destruct (l !! old) as [s|]; [|reflexivity]. simpl.
    exists (readyState (close_socket s)). split.
    + f_equal. f_equal. unfold close_socket. destruct (readyState s); reflexivity.
    + split; [|congruence]. intros _.
      unfold close_socket. destruct (readyState s) eqn:E; simpl; rewrite ?E; auto.
  - rewrite list_lookup_alter_ne by congruence.
    destruct (l !! i) as [s|]; [|reflexivity]. simpl.
    exists (readyState s). split; [reflexivity|]. split; [congruence|reflexivity].
Qed.

Lemma run_effects_location (a : App) :
  location (final (run_effects a)) = location a.
Proof.
  destruct (decide (effectDeps a = Some (userId a))) as [Hs|Hne].
  - rewrite run_effects_synced by exact Hs. reflexivity.
  - apply (run_effects_rerun a Hne).
Qed.

(** Rendering from tidy sockets: either the effect has nothing to do, or it
    closes the socket it held and then makes one for the active identity,
    unless the constructor refuses the address. *)
Lemma run_effects_well_connected (b : App) :
  sockets_tidy b -> well_connected (final (run_effects b)).
Proof.
  intros (I1 & I2 & I5).
  destruct (decide (effectDeps b = Some (userId b))) as [Hsync|Hrun].
  { rewrite run_effects_synced by exact Hsync. simpl.
    split; [exact (conj I1 (conj I2 I5))|].
    split; [intros _; exact Hsync|intros Hne; contradiction]. }
  pose proof (run_effects_rerun b Hrun) as Hre.
  destruct (run_effects_frame b) as (_ & _ & _ & Hu & _).
  assert (Hclosed : forall i,
    match socket_view b !! i with
    | Some (u, st0) =>
        exists st,
          ((fun s => (url s, readyState s))
             <$> match wsRef b with
                 | Some old => alter close_socket old (sockets b)
                 | None => sockets b
                 end) !! i = Some (u, st) /\
          (wsRef b = Some i -> st = CLOSING \/ st = CLOSED) /\
          (wsRef b <> Some i -> st = st0)
    | None =>
        ((fun s => (url s, readyState s))
           <$> match wsRef b with
               | Some old => alter close_socket old (sockets b)
               | None => sockets b
               end) !! i = None
    end).
  { intros i. unfold socket_view. destruct (wsRef b) as [old|].
    - pose proof (closed_view_lookup old (sockets b) i) as H.
      destruct (_ !! i) as [[u st0]|]; [|exact H].
      destruct H as (st & H1 & H2 & H3). exists st.
      split; [exact H1|]. split; [intros [= ->]; auto|].
      intros Hne. apply H3. congruence.
    - destruct (_ !! i) as [[u st0]|]; [|reflexivity].
      exists st0. split; [reflexivity|]. split; [discriminate|reflexivity]. }
  assert (Hlen : length match wsRef b with
                        | Some old => alter close_socket old (sockets b)
                        | None => sockets b
                        end = length (sockets b)).
  { destruct (wsRef b); [apply length_alter|reflexivity]. }
  set (closed := match wsRef b with
                 | Some old => alter close_socket old (sockets b)
                 | None => sockets b
                 end) in *.
  unfold well_connected, sockets_tidy, socket_view.
  destruct (has_fragment (ws_url (location b) (userId b))) eqn:HF;
    destruct Hre as (Hsock & Href & Hdeps & Hloc);
    rewrite Hsock, Href, Hdeps, Hloc, Hu.
  - rewrite app_nil_r.
    assert (Hall : forall i u st,
      ((fun s => (url s, readyState s)) <$> closed) !! i = Some (u, st) ->
      st = CLOSING \/ st = CLOSED).
    { intros i u st Hi. specialize (Hclosed i).
      destruct (socket_view b !! i) as [[u0 st0]|] eqn:Hv; [|congruence].
      destruct Hclosed as (st' & H1 & H2 & H3).
      assert (st' = st) by congruence. subst st'.
      destruct (decide (wsRef b = Some i)) as [Hcur|Hne]; [auto|].
      rewrite (H3 Hne). exact (I1 i u0 st0 Hv Hne). }
    split; [split; [|split]|split].
    + intros i u st Hi _. exact (Hall i u st Hi).
    + intros ws Hws. destruct (I2 ws Hws) as (prev & st0 & Hd & Hv).
      specialize (Hclosed ws). rewrite Hv in Hclosed.
      destruct Hclosed as (st & H1 & _). exists prev, st. auto.
    + exact I5.
    + rewrite HF. discriminate.
    + intros _. exact Hall.
  - split; [split; [|split]|split].
    + intros i u st Hi Hne. rewrite fmap_app in Hi.
      destruct (decide (i < length closed)%nat) as [Hlt|Hge].
      * rewrite lookup_app_l in Hi by (rewrite length_fmap; exact Hlt).
        specialize (Hclosed i).
        destruct (socket_view b !! i) as [[u0 st0]|] eqn:Hv; [|congruence].
        destruct Hclosed as (st' & H1 & H2 & H3).
        assert (st' = st) by congruence. subst st'.
        destruct (decide (wsRef b = Some i)) as [Hcur|Hn]; [auto|].
        rewrite (H3 Hn). exact (I1 i u0 st0 Hv Hn).
      * rewrite lookup_app_r in Hi by (rewrite length_fmap; lia).
        rewrite length_fmap in Hi.
        destruct (i - length closed)%nat eqn:E; [|discriminate].
        exfalso. apply Hne. f_equal. lia.
    + intros ws [= <-]. exists (userId b), CONNECTING.
      split; [reflexivity|].
      rewrite fmap_app, lookup_app_r by (rewrite length_fmap; lia).
      rewrite length_fmap, Hlen, Nat.sub_diag. reflexivity.
    + intros prev [= <-]. split; [exact HF|eauto].
    + reflexivity.
    + intros Hne. contradiction.
Qed.

(** A turn of the event loop whose handler leaves the sockets alone. *)
Lemma dispatch_well_connected (h : M unit) (a : App) :
  sockets_tidy a ->
  wsRef (final (h a)) = wsRef a -> location (final (h a)) = location a ->
  effectDeps (final (h a)) = effectDeps a ->
  socket_view (final (h a)) = socket_view a ->
  well_connected (dispatch h a) /\ location (dispatch h a) = location a.
Proof.
  intros Ht Hr Hl Hd Hv. unfold dispatch. split.
  - apply run_effects_well_connected.
    exact (sockets_tidy_ext a _ Ht Hr Hl Hd Hv).
  - rewrite run_effects_location. exact Hl.
Qed.

Lemma quiet_dispatch (h : M unit) (a : App) :
  quiet h -> sockets_tidy a ->
  well_connected (dispatch h a) /\ location (dispatch h a) = location a.
Proof.
  intros Hq Ht. destruct (Hq a) as (_ & H2 & H3 & H4 & H5).
  apply dispatch_well_connected; assumption.
Qed.

(** The browser moving a socket to [OPEN] (from [CONNECTING]) or to
    [CLOSED] keeps the sockets tidy. *)
Lemma set_readyState_tidy (st : ReadyState) (ws : nat) (a : App) :
  sockets_tidy a ->
  st = CLOSED \/ (st = OPEN /\ socket_state a ws = Some CONNECTING) ->
  sockets_tidy (with_sockets (alter (set_readyState st) ws) a).
Proof.
  intros (I1 & I2 & I5) Hst.
  assert (Hview : forall i,
    socket_view (with_sockets (alter (set_readyState st) ws) a) !! i
    = if decide (i = ws)
      then (fun p => (p.1, st)) <$> socket_view a !! i
      else socket_view a !! i).
  { intros i. rewrite !socket_view_lookup. simpl.
    destruct (decide (i = ws)) as [->|Hne].
    - rewrite list_lookup_alter_eq. destruct (sockets a !! ws); reflexivity.
    - rewrite list_lookup_alter_ne by congruence. reflexivity. }
  split; [|split].
  - intros i u st' Hi Hne. rewrite Hview in Hi. simpl in Hne.
    destruct (decide (i = ws)) as [->|Hiw]; [|eauto].
    destruct (socket_view a !! ws) as [[u0 st1]|] eqn:Hv; [|discriminate].
    simpl in Hi. injection Hi as -> <-.
    destruct Hst as [->|[-> Hconn]]; [auto|].
    exfalso. unfold socket_state in Hconn.
    destruct (sockets a !! ws) as [s|] eqn:Hsw; [|discriminate].
    simpl in Hconn. injection Hconn as Hc.
    destruct (I1 ws (url s) (readyState s)) as [H|H]; try congruence.
    rewrite socket_view_lookup, Hsw. reflexivity.
  - intros cur Hcur. simpl in Hcur.
    destruct (I2 cur Hcur) as (prev & st0 & Hd & Hv).
    specialize (Hview cur). rewrite Hv in Hview.
    destruct (decide (cur = ws)).
    + exists prev, st. split; [exact Hd|]. exact Hview.
    + exists prev, st0. split; [exact Hd|]. exact Hview.
  - exact I5.
Qed.

Lemma quiet_deliver (ev : browser_event) (a : App) :
  well_connected a ->
  well_connected (deliver ev a) /\ location (deliver ev a) = location a.
Proof.
  intros Hw. pose proof Hw as (Ht & _).
  destruct ev as [ws|ws|ws|ws data clk|s|s]; simpl.
  - destruct (socket_state a ws) as [[]|] eqn:Hst; auto.
    apply (quiet_dispatch onopen
             (with_sockets (alter (set_readyState OPEN) ws) a)).
    + apply quiet_setter. intros a0. simpl. auto.
    + apply set_readyState_tidy; auto.
  - assert (Hq : well_connected
                   (dispatch onclose
                      (with_sockets (alter (set_readyState CLOSED) ws) a)) /\
                 location
                   (dispatch onclose
                      (with_sockets (alter (set_readyState CLOSED) ws) a))
                 = location a).
    { apply (quiet_dispatch onclose
               (with_sockets (alter (set_readyState CLOSED) ws) a)).
      - apply quiet_setter. intros a0. simpl. auto.
      - apply set_readyState_tidy; auto. }
    destruct (socket_state a ws) as [[]|]; auto.
  - apply quiet_dispatch; [apply quiet_ret|exact Ht].
  - destruct (socket_state a ws) as [[]|]; auto.
    apply quiet_dispatch; [apply quiet_onmessage|exact Ht].
  - apply quiet_dispatch; [|exact Ht].
    apply quiet_setter. intros a0. simpl. auto.
  - apply quiet_dispatch; [|exact Ht].
    apply quiet_setter. intros a0. simpl. auto.
Qed.

Lemma turn_well_connected (a a' : App) :
  turn a a' -> well_connected a ->
  well_connected a' /\ location a' = location a.
Proof.
  intros Htn Hw. pose proof Hw as (Ht & _).
  destruct Htn as [ev a|identity a|random36 a|clk a|a|b a].
  - apply quiet_deliver. exact Hw.
  - unfold switchTo. apply dispatch_well_connected; auto;
      rewrite switchSession_run; reflexivity.
  - unfold createNew. apply dispatch_well_connected; auto;
      unfold handleNewSession; run_M; reflexivity.
  - unfold appendLocal. apply quiet_dispatch; [apply quiet_sendMessage|exact Ht].
  - unfold forget. apply quiet_dispatch; [apply quiet_forgetSession|exact Ht].
  - apply quiet_dispatch; [|exact Ht].
    apply quiet_setter. intros a0. simpl. auto.
Qed.

Lemma mount_well_connected (loc : Location) (random36 : jstring) :
  well_connected (mount loc random36) /\ location (mount loc random36) = loc.
Proof.
  unfold mount.
  apply (dispatch_well_connected (mret tt) (initial loc random36));
    try reflexivity.
  split; [|split].
  - intros i u st Hi. discriminate.
  - intros ws Hws. discriminate.
  - intros prev Hp. discriminate.
Qed.

Lemma reachable_well_connected (loc : Location) (random36 : jstring) (a : App) :
  reachable loc random36 a -> well_connected a /\ location a = loc.
Proof.
  induction 1 as [|a a' Hr [IHw IHl] Ht].
  - apply mount_well_connected.
  - destruct (turn_well_connected a a' Ht IHw) as [Hw Hl].
    split; [exact Hw|congruence].
Qed.

(** X1.  In every state the component can reach after mounting, every
    socket other than the one in [wsRef] is closing or closed, so at most
    one socket is live.  Where the address of the active identity is one
    the [WebSocket] constructor accepts (it holds no [#]), [wsRef] holds a
    socket with that address.  Where it is not, [connect] has closed the
    socket it held before the constructor threw, and no socket at all is
    connecting or open. *)
Theorem reachable_one_live_socket
    (loc : Location) (random36 : jstring) (a : App) :
  reachable loc random36 a ->
  (forall i s, sockets a !! i = Some s -> wsRef a <> Some i ->
     readyState s = CLOSING \/ readyState s = CLOSED) /\
  (has_fragment (ws_url loc (userId a)) = false ->
   exists ws s,
     wsRef a = Some ws /\ sockets a !! ws = Some s /\
     url s = ws_url loc (userId a)) /\
  (has_fragment (ws_url loc (userId a)) = true ->
   forall i s, sockets a !! i = Some s ->
     readyState s = CLOSING \/ readyState s = CLOSED).
Proof.
  intros Hr.
  destruct (reachable_well_connected loc random36 a Hr)
    as [((I1 & I2 & I5) & I6 & I3) Hloc].
  rewrite Hloc in *.
  split; [|split].
  - intros i s Hi Hne. apply (I1 i (url s) (readyState s)); [|exact Hne].
    rewrite socket_view_lookup, Hi. reflexivity.
  - intros HF. specialize (I6 HF).
    destruct (I5 _ I6) as (_ & ws & Href).
    destruct (I2 ws Href) as (prev & st & Hd & Hv).
    rewrite socket_view_lookup in Hv.
    destruct (sockets a !! ws) as [s|] eqn:Hs; [|discriminate].
    exists ws, s. split; [exact Href|]. split; [exact Hs|].
    simpl in Hv. injection Hv as Hu _. congruence.
  - intros HF i s Hi. apply (I3) with (i := i) (u := url s).
    + intros Hd. destruct (I5 _ Hd) as [HF' _]. congruence.
    + rewrite socket_view_lookup, Hi. reflexivity.
Qed.

Lemma reachable_one_live_socket_witness :
  (forall i s,
     sockets (switchTo (str "bob") Scenario.answered) !! i = Some s ->
     wsRef (switchTo (str "bob") Scenario.answered) <> Some i ->
     readyState s = CLOSING \/ readyState s = CLOSED) /\
  (has_fragment
     (ws_url Scenario.loc (userId (switchTo (str "bob") Scenario.answered)))
   = false ->
   exists ws s,
     wsRef (switchTo (str "bob") Scenario.answered) = Some ws /\
     sockets (switchTo (str "bob") Scenario.answered) !! ws = Some s /\
     url s = ws_url Scenario.loc
               (userId (switchTo (str "bob") Scenario.answered))) /\
  (has_fragment
     (ws_url Scenario.loc (userId (switchTo (str "bob") Scenario.answered)))
   = true ->
   forall i s,
     sockets (switchTo (str "bob") Scenario.answered) !! i = Some s ->
     readyState s = CLOSING \/ readyState s = CLOSED).
Proof.
  apply (reachable_one_live_socket Scenario.loc (str "0.abc123xyzw99")).
  apply reach_turn with Scenario.answered; [|apply turn_switch].
  change Scenario.answered
    with (deliver (Message 0%nat Scenario.pong Scenario.clk)
            (deliver (Message 0%nat Scenario.typing_off Scenario.clk)
               Scenario.sent_ping)).
  apply reach_turn with
    (deliver (Message 0%nat Scenario.typing_off Scenario.clk) Scenario.sent_ping);
    [|apply turn_browser].
  apply reach_turn with Scenario.sent_ping; [|apply turn_browser].
  apply reach_turn with (deliver (TypeInput (str " ping ")) Scenario.opened);
    [|apply turn_send].
  apply reach_turn with Scenario.opened; [|apply turn_browser].
  apply reach_turn with Scenario.mounted; [|apply turn_browser].
  apply reach_mount.
Defined.

(** ** After a switch *)

(** The sockets after a switch to another identity: the old socket closed,
    and a new one appended unless the constructor refuses the address. *)
Lemma switchTo_other_sockets (identity : jstring) (a : App) (old : nat) :
  effectDeps a = Some (userId a) ->
  wsRef a = Some old ->
  identity <> userId a ->
  sockets (switchTo identity a)
    = alter close_socket old (sockets a)
        ++ (if has_fragment (ws_url (location a) identity) then []
            else [mkWebSocket (ws_url (location a) identity) CONNECTING []]).
Proof.
  intros Hs Href Hne.
  unfold switchTo, dispatch. rewrite switchSession_run. simpl final.
  match goal with |- context [run_effects ?b] =>
    destruct (run_effects_rerun b) as (Hsock & _)
  end.
  - simpl. rewrite Hs. congruence.
  - rewrite Hsock. simpl. rewrite Href. reflexivity.
Qed.

(** X2.  After a switch to a different identity, a frame that still arrives
    on the socket of the previous identity changes nothing: [connect] called
    [close()] on that socket, and the browser delivers no message on a
    socket that is closing or closed. *)
Theorem stale_frame_discarded
    (identity frame : jstring) (clk : Clock) (a : App) (old : nat) :
  effectDeps a = Some (userId a) ->
  wsRef a = Some old ->
  identity <> userId a ->
  deliver (Message old frame clk) (switchTo identity a) = switchTo identity a.
Proof.
  intros Hs Href Hne.
  pose proof (switchTo_other_sockets identity a old Hs Href Hne) as Hsock.
  unfold deliver, socket_state. rewrite Hsock.
  destruct (decide (old < length (sockets a))%nat) as [Hlt|Hge].
  - rewrite lookup_app_l by (rewrite length_alter; exact Hlt).
    rewrite list_lookup_alter_eq.
    destruct (sockets a !! old) as [s|]; [|reflexivity].
    simpl. unfold close_socket. destruct (readyState s) eqn:E; simpl;
      rewrite ?E; reflexivity.
  - rewrite lookup_app_r by (rewrite length_alter; lia).
    rewrite length_alter.
    destruct (has_fragment _);
      destruct (old - length (sockets a))%nat; reflexivity.
Qed.

Lemma stale_frame_discarded_witness :
  timeline (deliver (Message 0%nat Scenario.pong Scenario.clk)
              (switchTo (str "bob") Scenario.sent_ping)) = [].
Proof.
  rewrite (stale_frame_discarded (str "bob") Scenario.pong Scenario.clk
             Scenario.sent_ping 0%nat).
  - reflexivity.
  - reflexivity.
  - reflexivity.
  - vm_compute. discriminate.
Defined.

(** X3.  The connection indicator follows the last open or close event of
    any socket, not the state of the current socket: when the close event
    of a socket that is no longer current arrives while the current socket
    is open, [isConnected] becomes [false], the current socket stays open
    and [sendMessage] still passes its guard. *)
Theorem late_close_clears_isConnected (a : App) (cur old : nat) (st : ReadyState) :
  effectDeps a = Some (userId a) ->
  wsRef a = Some cur ->
  old <> cur ->
  socket_state a cur = Some OPEN ->
  socket_state a old = Some st -> st <> CLOSED ->
  isConnected (deliver (Closed old) a) = false /\
  socket_state (deliver (Closed old) a) cur = Some OPEN /\
  not_open (deliver (Closed old) a) = false.
Proof.
  intros Hs Href Hne Hcur Hold Hst.
  assert (Heq : deliver (Closed old) a
                = final (onclose (with_sockets (alter (set_readyState CLOSED) old) a))).
  { unfold deliver. rewrite Hold. destruct st; try congruence;
      apply dispatch_synced_eq; exact Hs. }
  rewrite Heq. simpl. split; [reflexivity|].
  assert (Hc : socket_state
                 (logged (ESetIsConnected false)
                    (with_isConnected false
                       (with_sockets (alter (set_readyState CLOSED) old) a))) cur
               = Some OPEN).
  { unfold socket_state in *. simpl.
    rewrite list_lookup_alter_ne by congruence. exact Hcur. }
  split; [exact Hc|].
  apply (socket_open_not_closed _ cur); [exact Href|exact Hc].
Qed.

Lemma late_close_clears_isConnected_witness :
  isConnected
    (deliver (Closed 0%nat)
       (deliver (Opened 1%nat) (switchTo (str "bob") Scenario.answered))) = false /\
  socket_state
    (deliver (Closed 0%nat)
       (deliver (Opened 1%nat) (switchTo (str "bob") Scenario.answered))) 1
    = Some OPEN.
Proof.
  destruct (late_close_clears_isConnected
              (deliver (Opened 1%nat) (switchTo (str "bob") Scenario.answered))
              1%nat 0%nat CLOSING) as (H1 & H2 & _).
  - reflexivity.
  - reflexivity.
  - discriminate.
  - reflexivity.
  - reflexivity.
  - discriminate.
  - split; [exact H1|exact H2].
Defined.

(** X4.  Pressing Create twice in a row: the first press empties the
    preferred-id field, so the second press starts a session under a
    generated identity, whatever was typed before the first press. *)
Theorem createNew_twice (random1 random2 : jstring) (a : App) :
  newUserId (createNew random1 a) = [] /\
  userId (createNew random2 (createNew random1 a))
    = str "web_" ++ take 9 (drop 2 random2).
Proof.
  assert (Hfield : forall r b, newUserId (createNew r b) = []).
  { intros r b. unfold createNew.
    destruct (run_effects_frame (final (handleNewSession r b))) as (_ & _ & _ & _ & Hn).
    unfold dispatch. rewrite Hn. unfold handleNewSession. run_M. reflexivity. }
  split; [apply Hfield|].
  unfold createNew at 1.
  destruct (run_effects_frame
              (final (handleNewSession random2 (createNew random1 a))))
    as (_ & _ & _ & Hu & _).
  unfold dispatch. rewrite Hu. unfold handleNewSession. run_M.
  rewrite Hfield. reflexivity.
Qed.

(** ** What [sendMessage] sends *)

Lemma rev_is_reverse {A : Type} (l : list A) : rev l = reverse l.
Proof.
  induction l as [|x l IH]; [reflexivity|].
  simpl. rewrite reverse_cons, IH. reflexivity.
Qed.

Lemma trimStart_head (s : jstring) (c : N) (r : jstring) :
  trimStart s = c :: r -> is_js_whitespace c = false.
Proof.
  induction s as [|x s IH]; [discriminate|].
  simpl. destruct (is_js_whitespace x) eqn:Hx; [exact IH|].
  intros H. injection H as <- _. exact Hx.
Qed.

Lemma trimStart_suffix (s : jstring) : exists p, s = p ++ trimStart s.
Proof.
  induction s as [|x s [p IH]]; [exists []; reflexivity|].
  simpl. destruct (is_js_whitespace x).
  - exists (x :: p). simpl. f_equal. exact IH.
  - exists []. reflexivity.
Qed.

Lemma trimStart_fixed (s : jstring) :
  (forall c, head s = Some c -> is_js_whitespace c = false) -> trimStart s = s.
Proof.
  destruct s as [|x s]; [reflexivity|].
  intros H. simpl. rewrite (H x) by reflexivity. reflexivity.
Qed.

(** The first and the last code unit of a trimmed text are not white
    space. *)
Lemma trim_ends (s : jstring) (c : N) :
  head (trim s) = Some c \/ last (trim s) = Some c -> is_js_whitespace c = false.
Proof.
  unfold trim, trimEnd. rewrite rev_is_reverse.
  set (t := trimStart s). set (u := trimStart (rev t)).
  intros [H|H].
  - rewrite head_reverse in H.
    destruct (trimStart_suffix (rev t)) as [p Hp]. fold u in Hp.
    assert (Hl : last (rev t) = Some c).
    { rewrite Hp. rewrite last_app, H. reflexivity. }
    rewrite rev_is_reverse, last_reverse in Hl.
    apply head_Some in Hl as [r Hr]. apply (trimStart_head s c r). exact Hr.
  - rewrite last_reverse in H.
    apply head_Some in H as [r Hr]. apply (trimStart_head (rev t) c r). exact Hr.
Qed.

(** Trimming a trimmed text changes nothing. *)
Lemma trim_idemp (s : jstring) : trim (trim s) = trim s.
Proof.
  set (c := trim s).
  assert (H1 : trimStart c = c).
  { apply trimStart_fixed. intros x Hx. apply (trim_ends s x). auto. }
  unfold trim, trimEnd. rewrite H1.
  rewrite trimStart_fixed; [apply rev_involutive|].
  intros x Hx. rewrite rev_is_reverse, head_reverse in Hx.
  apply (trim_ends s x). auto.
Qed.

(** X5.  Whatever is in the input field, an entry that [sendMessage] adds
    to the Timeline is a [user] entry whose content is a non-empty string
    without white space at either end, and it is the only entry added. *)
Theorem sent_content_is_trimmed (clk : Clock) (a : App) (ms : list MessageData) :
  messages (appendLocal clk a) = messages a ++ ms ->
  ms = [] \/
  exists c,
    ms = [mkMessage (fresh_message_id clk) (VString (str "user")) (VString c)
                    (DateNow (new_Date clk))] /\
    c <> [] /\ trim c = c /\
    (forall x, head c = Some x \/ last c = Some x -> is_js_whitespace x = false).
Proof.
  unfold appendLocal.
  destruct (dispatch_view (sendMessage clk) a) as [Hm _]. rewrite Hm. clear Hm.
  unfold sendMessage, setMessages_append, setInput, setIsTyping. run_M.
  destruct (trim (input a)) as [|c0 r0] eqn:Hc.
  - simpl. intros H. left.
    apply (app_inv_head (messages a)). rewrite app_nil_r. symmetry. exact H.
  - destruct (not_open a).
    + simpl. intros H. left.
      apply (app_inv_head (messages a)). rewrite app_nil_r. symmetry. exact H.
    + cbn [orb wsRef logged with_messages].
      assert (Hdone :
                messages a ++ [mkMessage (fresh_message_id clk)
                                  (VString (str "user")) (VString (c0 :: r0))
                                  (DateNow (new_Date clk))] = messages a ++ ms ->
                ms = [] \/
                exists c,
                  ms = [mkMessage (fresh_message_id clk) (VString (str "user"))
                                  (VString c) (DateNow (new_Date clk))] /\
                  c <> [] /\ trim c = c /\
                  (forall x, head c = Some x \/ last c = Some x ->
                             is_js_whitespace x = false)).
      { intros H. apply app_inv_head in H. right.
        exists (c0 :: r0). split; [symmetry; exact H|].
        split; [discriminate|]. rewrite <- Hc.
        split; [apply trim_idemp|]. intros x. apply trim_ends. }
      destruct (wsRef a) as [ws|]; [|exact Hdone].
      unfold ws_send. cbn [sockets logged with_messages].
      destruct (sockets a !! ws) as [s|]; [|exact Hdone].
      destruct (readyState s); exact Hdone.
Qed.

Lemma sent_content_is_trimmed_witness :
  exists c,
    messages Scenario.sent_ping
      = messages (deliver (TypeInput (str " ping ")) Scenario.opened)
          ++ [mkMessage (fresh_message_id Scenario.clk) (VString (str "user"))
                        (VString c) (DateNow (new_Date Scenario.clk))] /\
    trim c = c.
Proof.
  destruct (sent_content_is_trimmed Scenario.clk
              (deliver (TypeInput (str " ping ")) Scenario.opened)
              (messages Scenario.sent_ping)) as [H|(c & Hm & _ & Ht & _)].
  - reflexivity.
  - discriminate H.
  - exists c. split; [|exact Ht].
    change (messages (deliver (TypeInput (str " ping ")) Scenario.opened))
      with (@nil MessageData).
    rewrite <- Hm. reflexivity.
Defined.

(** ** Outbound frames can be read back *)

Ltac Zify.zify_post_hook ::= Z.to_euclidean_division_equations.

Lemma hex_digit_lower (d : N) : d < 16 -> JSON.hex_digit (hex_lower d) = Some d.
Proof.
  intros Hd. unfold JSON.hex_digit, hex_lower.
  destruct (d <? 10) eqn:H10.
  - apply N.ltb_lt in H10.
    replace ((48 <=? 48 + d) && (48 + d <=? 57)) with true
      by (symmetry; apply andb_true_iff; split; apply N.leb_le; lia).
    f_equal. lia.
  - apply N.ltb_ge in H10.
    replace ((48 <=? 87 + d) && (87 + d <=? 57)) with false
      by (symmetry; apply andb_false_iff; right; apply N.leb_gt; lia).
    replace ((97 <=? 87 + d) && (87 + d <=? 102)) with true
      by (symmetry; apply andb_true_iff; split; apply N.leb_le; lia).
    f_equal. lia.
Qed.

Lemma unicode_value (c : N) :
  c < 65536 ->
  (((0 * 16 + c / 4096 mod 16) * 16 + c / 256 mod 16) * 16 + c / 16 mod 16) * 16
    + c mod 16 = c.
Proof. intros H. lia. Qed.

(** A step of the lexer that emits no token. *)
Lemma lex_silent (m m' : JSON.mode) (c : N) (text : jstring) :
  JSON.lex_step m c = Some (m', []) -> JSON.lex m (c :: text) = JSON.lex m' text.
Proof.
  intros H. simpl. rewrite H. simpl. destruct (JSON.lex m' text); reflexivity.
Qed.

(** A step of the lexer that emits one token and returns between tokens. *)
Lemma lex_token (m : JSON.mode) (c : N) (t : JSON.token) (text : jstring) :
  JSON.lex_step m c = Some (JSON.MStart, [t]) ->
  JSON.lex m (c :: text) = (fun ts => t :: ts) <$> JSON.lex JSON.MStart text.
Proof.
  intros H. simpl. rewrite H. simpl. destruct (JSON.lex JSON.MStart text); reflexivity.
Qed.

Lemma lex_unicode_escape (acc : jstring) (c : N) (text : jstring) :
  c < 65536 ->
  JSON.lex (JSON.MString acc) (unicode_escape c ++ text)
    = JSON.lex (JSON.MString (c :: acc)) text.
Proof.
  intros Hc. unfold unicode_escape. cbn [app].
  rewrite (lex_silent _ (JSON.MEscape acc)) by reflexivity.
  rewrite (lex_silent _ (JSON.MUnicode acc 0 0)) by reflexivity.
  assert (Hd : forall d, d < 16 -> JSON.hex_digit (hex_lower d) = Some d)
    by apply hex_digit_lower.
  rewrite (lex_silent _ (JSON.MUnicode acc 1 (0 * 16 + c / 4096 mod 16)))
    by (cbn [JSON.lex_step]; rewrite Hd by lia; reflexivity).
  rewrite (lex_silent _ (JSON.MUnicode acc 2
             ((0 * 16 + c / 4096 mod 16) * 16 + c / 256 mod 16)))
    by (cbn [JSON.lex_step]; rewrite Hd by lia; reflexivity).
  rewrite (lex_silent _ (JSON.MUnicode acc 3
             (((0 * 16 + c / 4096 mod 16) * 16 + c / 256 mod 16) * 16
              + c / 16 mod 16)))
    by (cbn [JSON.lex_step]; rewrite Hd by lia; reflexivity).
  rewrite (lex_silent _ (JSON.MString (c :: acc))); [reflexivity|].
  cbn [JSON.lex_step]. rewrite Hd by lia.
  rewrite (unicode_value c Hc). reflexivity.
Qed.

(** A code unit that stands for itself inside a string literal. *)
Lemma lex_raw (acc : jstring) (c : N) (text : jstring) :
  c <> 34 -> c <> 92 -> 32 <= c ->
  JSON.lex (JSON.MString acc) (c :: text) = JSON.lex (JSON.MString (c :: acc)) text.
Proof.
  intros H34 H92 H32. apply lex_silent. cbn [JSON.lex_step].
  rewrite (proj2 (N.eqb_neq c 34)) by exact H34.
  rewrite (proj2 (N.eqb_neq c 92)) by exact H92.
  rewrite (proj2 (N.ltb_ge c 32)) by exact H32. reflexivity.
Qed.

Lemma lex_quote_body (n : nat) :
  forall (s acc text : jstring),
    (length s <= n)%nat ->
    JSON.lex (JSON.MString acc) (quote_body s ++ 34 :: text)
      = (fun ts => JSON.TString (rev acc ++ s) :: ts) <$> JSON.lex JSON.MStart text.
Proof.
  induction n as [|n IH]; intros s acc text Hlen.
  - destruct s; [|simpl in Hlen; lia].
    simpl app. rewrite app_nil_r.
    apply (lex_token (JSON.MString acc) 34 (JSON.TString (rev acc))). reflexivity.
  - destruct s as [|c s'].
    { simpl app. rewrite app_nil_r.
      apply (lex_token (JSON.MString acc) 34 (JSON.TString (rev acc))). reflexivity. }
    assert (Hnext : forall acc',
      rev acc' = rev acc ++ [c] ->
      JSON.lex (JSON.MString acc') (quote_body s' ++ 34 :: text)
        = (fun ts => JSON.TString (rev acc ++ c :: s') :: ts)
            <$> JSON.lex JSON.MStart text).
    { intros acc' Hacc. rewrite IH by (simpl in Hlen; lia).
      rewrite Hacc, <- app_assoc. reflexivity. }
    assert (Hescaped : forall e : jstring,
      (forall t, JSON.lex (JSON.MString acc) (e ++ t)
                 = JSON.lex (JSON.MString (c :: acc)) t) ->
      JSON.lex (JSON.MString acc) ((e ++ quote_body s') ++ 34 :: text)
        = (fun ts => JSON.TString (rev acc ++ c :: s') :: ts)
            <$> JSON.lex JSON.MStart text).
    { intros e He. rewrite <- app_assoc, He. apply Hnext. reflexivity. }
    cbn [quote_body].
    destruct (c =? 8) eqn:E8.
    { apply N.eqb_eq in E8. subst c. apply Hescaped. intros t.
      change (str "\b") with [92; 98]. cbn [app].
      rewrite (lex_silent _ (JSON.MEscape acc)) by reflexivity.
      apply lex_silent. reflexivity. }
    destruct (c =? 9) eqn:E9.
    { apply N.eqb_eq in E9. subst c. apply Hescaped. intros t.
      change (str "\t") with [92; 116]. cbn [app].
      rewrite (lex_silent _ (JSON.MEscape acc)) by reflexivity.
      apply lex_silent. reflexivity. }
    destruct (c =? 10) eqn:E10.
    { apply N.eqb_eq in E10. subst c. apply Hescaped. intros t.
      change (str "\n") with [92; 110]. cbn [app].
      rewrite (lex_silent _ (JSON.MEscape acc)) by reflexivity.
      apply lex_silent. reflexivity. }
    destruct (c =? 12) eqn:E12.
    { apply N.eqb_eq in E12. subst c. apply Hescaped. intros t.
      change (str "\f") with [92; 102]. cbn [app].
      rewrite (lex_silent _ (JSON.MEscape acc)) by reflexivity.
      apply lex_silent. reflexivity. }
    destruct (c =? 13) eqn:E13.
    { apply N.eqb_eq in E13. subst c. apply Hescaped. intros t.
      change (str "\r") with [92; 114]. cbn [app].
      rewrite (lex_silent _ (JSON.MEscape acc)) by reflexivity.
      apply lex_silent. reflexivity. }
    destruct (c =? 34) eqn:E34.
    { apply N.eqb_eq in E34. subst c. apply Hescaped. intros t. cbn [app].
      rewrite (lex_silent _ (JSON.MEscape acc)) by reflexivity.
      apply lex_silent. reflexivity. }
    destruct (c =? 92) eqn:E92.
    { apply N.eqb_eq in E92. subst c. apply Hescaped. intros t. cbn [app].
      rewrite (lex_silent _ (JSON.MEscape acc)) by reflexivity.
      apply lex_silent. reflexivity. }
    apply N.eqb_neq in E34, E92.
    destruct (c <? 32) eqn:E32.
    { apply N.ltb_lt in E32. apply Hescaped. intros t.
      apply lex_unicode_escape. lia. }
    apply N.ltb_ge in E32.
    destruct (is_high_surrogate c) eqn:Ehigh.
    { unfold is_high_surrogate in Ehigh.
      apply andb_true_iff in Ehigh as [Hlo Hhi].
      apply N.leb_le in Hlo, Hhi.
      destruct s' as [|d s''].
      - rewrite lex_unicode_escape by lia.
        specialize (Hnext (c :: acc) eq_refl). exact Hnext.
      - destruct (is_low_surrogate d) eqn:Elow.
        + unfold is_low_surrogate in Elow.
          apply andb_true_iff in Elow as [Hdlo Hdhi].
          apply N.leb_le in Hdlo, Hdhi.
          cbn [app]. rewrite lex_raw by lia. rewrite lex_raw by lia.
          rewrite IH by (simpl in Hlen; lia).
          simpl rev. rewrite <- !app_assoc. reflexivity.
        + apply Hescaped. intros t. apply lex_unicode_escape. lia. }
    destruct (is_low_surrogate c) eqn:Elow.
    { unfold is_low_surrogate in Elow.
      apply andb_true_iff in Elow as [Hlo Hhi].
      apply N.leb_le in Hlo, Hhi.
      apply Hescaped. intros t. apply lex_unicode_escape. lia. }
    cbn [app]. rewrite lex_raw by assumption. apply Hnext. reflexivity.
Qed.

Lemma lex_quote (s text : jstring) :
  JSON.lex JSON.MStart (quote s ++ text)
    = (fun ts => JSON.TString s :: ts) <$> JSON.lex JSON.MStart text.
Proof.
  unfold quote. cbn [app].
  rewrite (lex_silent _ (JSON.MString [])) by reflexivity.
  rewrite <- app_assoc. cbn [app].
  apply (lex_quote_body (length s) s [] text). lia.
Qed.

Lemma lex_members (props : list (jstring * jstring)) (text : jstring) :
  JSON.lex JSON.MStart (stringify_members props ++ text)
    = (fun ts => members_tokens props ++ ts) <$> JSON.lex JSON.MStart text.
Proof.
  induction props as [|[k v] rest IH].
  - simpl. destruct (JSON.lex JSON.MStart text); reflexivity.
  - assert (Hkv : forall t,
      JSON.lex JSON.MStart (quote k ++ [58] ++ quote v ++ t)
        = (fun ts => [JSON.TString k; JSON.TColon; JSON.TString v] ++ ts)
            <$> JSON.lex JSON.MStart t).
    { intros t. rewrite lex_quote. cbn [app].
      rewrite (lex_token JSON.MStart 58 JSON.TColon) by reflexivity.
      rewrite lex_quote. destruct (JSON.lex JSON.MStart t); reflexivity. }
    destruct rest as [|kv' rest'].
    + cbn [stringify_members members_tokens]. rewrite <- !app_assoc. apply Hkv.
    + change (stringify_members ((k, v) :: kv' :: rest'))
        with (quote k ++ [58] ++ quote v ++ [44] ++ stringify_members (kv' :: rest')).
      change (members_tokens ((k, v) :: kv' :: rest'))
        with ([JSON.TString k; JSON.TColon; JSON.TString v; JSON.TComma]
                ++ members_tokens (kv' :: rest')).
      rewrite <- !app_assoc. rewrite Hkv. cbn [app].
      rewrite (lex_token JSON.MStart 44 JSON.TComma) by reflexivity.
      rewrite IH. destruct (JSON.lex JSON.MStart text); reflexivity.
Qed.

Lemma run_members (props : list (jstring * jstring)) :
  forall (acc : list (jstring * value)) (s : JSON.pstate),
    props <> [] ->
    (forall k, JSON.parse_step s (JSON.TString k) = Some (JSON.SColon acc k [])) ->
    JSON.run s (members_tokens props ++ [JSON.TRBrace])
      = Some (JSON.SDone
                (VObject (rev acc ++ map (fun kv => (kv.1, VString kv.2)) props))).
Proof.
  induction props as [|[k v] rest IH]; intros acc s Hne Hkey; [congruence|].
  destruct rest as [|kv' rest'].
  - cbn [members_tokens app JSON.run]. rewrite Hkey. reflexivity.
  - change (members_tokens ((k, v) :: kv' :: rest'))
      with ([JSON.TString k; JSON.TColon; JSON.TString v; JSON.TComma]
              ++ members_tokens (kv' :: rest')).
    rewrite <- app_assoc. cbn [app JSON.run]. rewrite Hkey.
    cbn [mbind option_bind JSON.parse_step JSON.start_value JSON.complete].
    rewrite (IH ((k, VString v) :: acc)); [|discriminate|reflexivity].
    simpl rev. rewrite <- app_assoc. reflexivity.
Qed.

(** X6.  What [JSON.stringify] writes for an object of string properties,
    [JSON.parse] reads back as that object, whatever code units the strings
    hold (quotes, backslashes, control characters, lone surrogates).  So the
    message frame of [sendMessage] decodes to its [type] and its content,
    and the frame of [forgetSession] to its [type]. *)
Theorem parse_stringify (props : list (jstring * jstring)) :
  JSON.parse (JSON_stringify props)
    = Some (VObject (map (fun kv => (kv.1, VString kv.2)) props)).
Proof.
  unfold JSON.parse, JSON_stringify. cbn [app].
  rewrite (lex_token JSON.MStart 123 JSON.TLBrace) by reflexivity.
  rewrite lex_members.
  change (JSON.lex JSON.MStart [125]) with (Some [JSON.TRBrace]).
  cbn [fmap option_fmap option_map mbind option_bind].
  destruct props as [|kv rest]; [reflexivity|].
  cbn [JSON.run JSON.parse_step JSON.start_value mbind option_bind].
  rewrite (run_members (kv :: rest) [] (JSON.SObjOpen []));
    [reflexivity|discriminate|reflexivity].
Qed.


(** * The session list, the keyboard and the session browser *)

(** ** Fetching the session list *)


(** X7.  [fetchSessions] swallows every failure and then leaves the session
    list as it was: when the request fails, when the body is not JSON (an
    HTML error page), or when the body is the JSON text [null], nothing but
    a [console.error] happens. *)
Theorem fetchSessions_failure_keeps_list (response : option jstring) (p : Page) :
  response = None \/
  (exists body, response = Some body /\
     (JSON.parse body = None \/ JSON.parse body = Some VNull)) ->
  fetchSessions_done response p
    = plogged (PConsoleError (str "Failed to fetch sessions:")) p /\
  sessions (fetchSessions_done response p) = sessions p /\
  core (fetchSessions_done response p) = core p.
Proof.
  intros H.
  assert (Hnone : fetched_sessions response = None).
  { destruct H as [->|(body & -> & [Hp|Hp])]; [reflexivity| |];
      unfold fetched_sessions; simpl; rewrite Hp; reflexivity. }
  unfold fetchSessions_done. rewrite Hnone. repeat split.
Qed.

Lemma fetchSessions_failure_keeps_list_witness :
  sessions (fetchSessions_done (Some (str "<html>Bad Gateway</html>"))
              (setSessions (VArray [VObject [(str "user_id", VString (str "bob"))]])
                 (page_mount Scenario.loc (str "0.abc123xyzw99"))))
    = VArray [VObject [(str "user_id", VString (str "bob"))]].
Proof.
  destruct (fetchSessions_failure_keeps_list
              (Some (str "<html>Bad Gateway</html>"))
              (setSessions (VArray [VObject [(str "user_id", VString (str "bob"))]])
                 (page_mount Scenario.loc (str "0.abc123xyzw99"))))
    as (_ & Hs & _).
  - right. exists (str "<html>Bad Gateway</html>"). split; [reflexivity|].
    left. reflexivity.
  - exact Hs.
Defined.



(** ** The keyboard *)

Ltac key_clash :=
  match goal with
  | H1 : key ?e = str ?a, H2 : key ?e = str ?b |- _ =>
      exfalso; rewrite H1 in H2; vm_compute in H2; discriminate H2
  end.

(** A key other than the five of the shortcuts does nothing in the listener
    of [App]. *)
Lemma handleKeyDown_other_key
    (e : KeyboardEvent) (activeTag : option jstring) (random36 : jstring) (p : Page) :
  key e <> str "h" -> key e <> str "S" -> key e <> str "M" ->
  key e <> str "n" -> key e <> str "/" ->
  handleKeyDown e activeTag random36 p = p.
Proof.
  intros Hh HS HM Hn Hslash. unfold handleKeyDown.
  rewrite (bool_decide_eq_false_2 _ Hh), (bool_decide_eq_false_2 _ HS),
    (bool_decide_eq_false_2 _ HM), (bool_decide_eq_false_2 _ Hn),
    (bool_decide_eq_false_2 _ Hslash).
  rewrite ?andb_false_r. reflexivity.
Qed.

(** X9.  The [keydown] listener that [App] installs on [window]
    ([handleKeyDown], lines 111-144), for a key pressed without Ctrl and
    without Cmd: it leaves the session, the Timeline, the session list and
    the sidebar as they are.  For [/] pressed while neither a TEXTAREA nor
    an INPUT has the focus it prevents the default action and focuses the
    message box, and that is all; for every other plain key, and for [/]
    while such an element has the focus, it does nothing at all.  The
    statement is about this listener alone: the Escape listener of
    [Sidebar] and the Enter handler of the message box are other
    functions. *)
Theorem plain_key_only_focuses
    (e : KeyboardEvent) (activeTag : option jstring) (random36 : jstring) (p : Page) :
  ctrlKey e = false -> metaKey e = false ->
  core (handleKeyDown e activeTag random36 p) = core p /\
  sessions (handleKeyDown e activeTag random36 p) = sessions p /\
  showSidebar (handleKeyDown e activeTag random36 p) = showSidebar p /\
  sidebarTab (handleKeyDown e activeTag random36 p) = sidebarTab p /\
  (activeTag = Some (str "TEXTAREA") \/ activeTag = Some (str "INPUT") \/
   key e <> str "/" ->
     handleKeyDown e activeTag random36 p = p) /\
  (key e = str "/" ->
   activeTag <> Some (str "TEXTAREA") -> activeTag <> Some (str "INPUT") ->
     handleKeyDown e activeTag random36 p
       = plogged PFocusInput (plogged PPreventDefault p)).
Proof.
  intros Hc Hm. unfold handleKeyDown. rewrite Hc, Hm. cbn [orb andb].
  destruct (bool_decide (key e = str "/")
            && negb (bool_decide (activeTag = Some (str "TEXTAREA")))
            && negb (bool_decide (activeTag = Some (str "INPUT")))) eqn:Hfocus.
  - apply andb_true_iff in Hfocus as [Hfocus Hinput].
    apply andb_true_iff in Hfocus as [Hkey Harea].
    apply bool_decide_eq_true_1 in Hkey.
    apply negb_true_iff, bool_decide_eq_false_1 in Harea, Hinput.
    repeat split. intros Hno. exfalso.
    destruct Hno as [H|[H|H]]; contradiction.
  - apply andb_false_iff in Hfocus as [Hfocus|Hinput];
      [apply andb_false_iff in Hfocus as [Hkey|Harea]|].
    + apply bool_decide_eq_false_1 in Hkey.
      repeat split. intros Hk. contradiction.
    + apply negb_false_iff, bool_decide_eq_true_1 in Harea.
      repeat split. intros _ Ha. contradiction.
    + apply negb_false_iff, bool_decide_eq_true_1 in Hinput.
      repeat split. intros _ _ Hi. contradiction.
Qed.

Lemma plain_key_only_focuses_witness :
  handleKeyDown (mkKey false false false (str "/")) (Some (str "TEXTAREA"))
                (str "0.zzz") (page_mount Scenario.loc (str "0.abc123xyzw99"))
    = page_mount Scenario.loc (str "0.abc123xyzw99").
Proof.
  apply (plain_key_only_focuses (mkKey false false false (str "/"))
           (Some (str "TEXTAREA")) (str "0.zzz")
           (page_mount Scenario.loc (str "0.abc123xyzw99")));
    [reflexivity|reflexivity|].
  left. reflexivity.
Defined.

(** X10.  One key event triggers at most one shortcut: the listener of
    [App] only adds to the log of the page, and calls [preventDefault] at
    most once. *)
Theorem one_shortcut_per_key
    (e : KeyboardEvent) (activeTag : option jstring) (random36 : jstring) (p : Page) :
  exists l,
    page_log (handleKeyDown e activeTag random36 p) = page_log p ++ l /\
    (preventDefault_calls l <= 1)%nat.
Proof.
  unfold handleKeyDown.
  destruct (bool_decide (key e = str "h")) eqn:Hh;
  destruct (bool_decide (key e = str "S")) eqn:HS;
  destruct (bool_decide (key e = str "M")) eqn:HM;
  destruct (bool_decide (key e = str "n")) eqn:Hn;
  destruct (bool_decide (key e = str "/")) eqn:Hslash;
  repeat match goal with
         | H : bool_decide _ = true |- _ => apply bool_decide_eq_true_1 in H
         end;
  try key_clash;
  rewrite ?andb_false_r; cbn [andb];
  destruct (ctrlKey e || metaKey e); cbn [andb];
  try destruct (shiftKey e); cbn [andb];
  try destruct (negb (bool_decide (activeTag = Some (str "TEXTAREA")))); cbn [andb];
  try destruct (negb (bool_decide (activeTag = Some (str "INPUT"))));
  first [ exists []; split; [symmetry; apply app_nil_r | unfold preventDefault_calls; simpl; lia]
        | eexists; split;
          [ cbn [page_log plogged toggleShowSidebar setShowSidebar setSidebarTab on_app];
            rewrite <- ?app_assoc; reflexivity
          | unfold preventDefault_calls; simpl; lia ] ].
Qed.

(** A key that is [Escape] means nothing to the listener of [App]. *)
Lemma handleKeyDown_escape
    (e : KeyboardEvent) (activeTag : option jstring) (random36 : jstring) (p : Page) :
  key e = str "Escape" -> handleKeyDown e activeTag random36 p = p.
Proof.
  intros H. apply handleKeyDown_other_key; rewrite H; vm_compute; discriminate.
Qed.

(** X11.  The two [keydown] listeners on [window], the one of [App] and the
    one of [Sidebar], can run in either order: the page after the event is
    the same. *)
Theorem keydown_listeners_commute
    (e : KeyboardEvent) (activeTag : option jstring) (random36 : jstring) (p : Page) :
  keydown true e activeTag random36 p = keydown false e activeTag random36 p.
Proof.
  unfold keydown. f_equal.
  destruct (bool_decide (key e = str "Escape")) eqn:Hesc.
  - apply bool_decide_eq_true_1 in Hesc.
    rewrite !(handleKeyDown_escape e) by exact Hesc. reflexivity.
  - unfold sidebar_handleKeyDown. rewrite Hesc. reflexivity.
Qed.

(** X12.  Ctrl+N or Cmd+N (the key is [n], so without Shift) starts a new
    session exactly as [switchTo] on a generated identity does: the Timeline
    is emptied and the identity is ["web_"] followed by at most nine code
    units of the random text; the sidebar and the session list stay as they
    are. *)
Theorem new_session_shortcut
    (sidebar_first : bool) (e : KeyboardEvent) (activeTag : option jstring)
    (random36 : jstring) (p : Page) :
  ctrlKey e || metaKey e = true ->
  key e = str "n" ->
  core (keydown sidebar_first e activeTag random36 p)
    = switchTo (str "web_" ++ take 9 (drop 2 random36)) (core p) /\
  messages (core (keydown sidebar_first e activeTag random36 p)) = [] /\
  userId (core (keydown sidebar_first e activeTag random36 p))
    = str "web_" ++ take 9 (drop 2 random36) /\
  showSidebar (keydown sidebar_first e activeTag random36 p) = showSidebar p /\
  sessions (keydown sidebar_first e activeTag random36 p) = sessions p.
Proof.
  intros Hmod Hkey.
  assert (Hside : forall b q, sidebar_handleKeyDown b e q = q).
  { intros b q. unfold sidebar_handleKeyDown.
    rewrite bool_decide_eq_false_2; [reflexivity|].
    rewrite Hkey. vm_compute. discriminate. }
  assert (Happ : forall q,
    handleKeyDown e activeTag random36 q
      = on_app (switchSession (random_id random36)) (plogged PPreventDefault q)).
  { intros q. unfold handleKeyDown. rewrite Hmod. cbn [andb].
    rewrite (bool_decide_eq_false_2 (key e = str "h"))
      by (rewrite Hkey; vm_compute; discriminate).
    rewrite (bool_decide_eq_false_2 (key e = str "S"))
      by (rewrite Hkey; vm_compute; discriminate).
    rewrite (bool_decide_eq_false_2 (key e = str "M"))
      by (rewrite Hkey; vm_compute; discriminate).
    rewrite (bool_decide_eq_false_2 (key e = str "/"))
      by (rewrite Hkey; vm_compute; discriminate).
    rewrite (bool_decide_eq_true_2 (key e = str "n")) by exact Hkey.
    rewrite !andb_false_r. reflexivity. }
  assert (Hcore : core (keydown sidebar_first e activeTag random36 p)
                  = switchTo (str "web_" ++ take 9 (drop 2 random36)) (core p)).
  { unfold keydown. destruct sidebar_first; rewrite ?Hside, Happ, ?Hside; reflexivity. }
  split; [exact Hcore|]. rewrite Hcore.
  destruct (dispatch_view (switchSession (str "web_" ++ take 9 (drop 2 random36)))
              (core p)) as [Hm _].
  destruct (run_effects_frame
              (final (switchSession (str "web_" ++ take 9 (drop 2 random36)) (core p))))
    as (_ & _ & _ & Hu & _).
  unfold switchTo. rewrite Hm. unfold dispatch at 1. rewrite Hu.
  rewrite switchSession_run. cbn [messages userId logged with_showSessionPicker
    with_userId with_messages].
  split; [reflexivity|]. split; [reflexivity|].
  unfold keydown. destruct sidebar_first; rewrite ?Hside, Happ, ?Hside; split; reflexivity.
Qed.

Lemma new_session_shortcut_witness :
  userId (core (keydown true (mkKey true false false (str "n")) None (str "0.k3j9x2m1pq7")
                  (page_mount Scenario.loc (str "0.abc123xyzw99"))))
    = str "web_k3j9x2m1p".
Proof.
  destruct (new_session_shortcut true (mkKey true false false (str "n")) None
              (str "0.k3j9x2m1pq7")
              (page_mount Scenario.loc (str "0.abc123xyzw99")))
    as (_ & _ & Hu & _).
  - reflexivity.
  - reflexivity.
  - rewrite Hu. reflexivity.
Defined.

(** ** The message box *)

(** X13.  The [keydown] handler of the message box ([handleKeyDown] of
    InputArea, lines 34-39), taken alone: for Shift+Enter and for every key
    other than Enter it does nothing, so it sends nothing and does not
    prevent the default action; for plain Enter it prevents the default
    action (no new line is inserted) and runs [sendMessage], and when the
    text is blank this changes nothing else.  The listeners on [window],
    which the same key event reaches afterwards, are other functions. *)
Theorem enter_key_in_message_box (e : KeyboardEvent) (clk : Clock) (p : Page) :
  (key e <> str "Enter" \/ shiftKey e = true -> input_handleKeyDown e clk p = p) /\
  (key e = str "Enter" -> shiftKey e = false ->
     page_log (input_handleKeyDown e clk p) = page_log p ++ [PPreventDefault] /\
     core (input_handleKeyDown e clk p) = appendLocal clk (core p) /\
     (trim (input (core p)) = [] -> effectDeps (core p) = Some (userId (core p)) ->
        core (input_handleKeyDown e clk p) = core p)).
Proof.
  unfold input_handleKeyDown. split.
  - intros [Hk|Hs].
    + rewrite (bool_decide_eq_false_2 _ Hk). reflexivity.
    + rewrite Hs, andb_false_r. reflexivity.
  - intros Hk Hs. rewrite (bool_decide_eq_true_2 _ Hk), Hs. cbn [negb andb].
    split; [reflexivity|]. split; [reflexivity|].
    intros Hblank Hsync. cbn [render on_app core plogged].
    assert (Hnoop : sendMessage clk (core p) = Ok tt (core p)).
    { unfold sendMessage. run_M. rewrite Hblank. reflexivity. }
    rewrite Hnoop. cbn [final]. rewrite run_effects_synced by exact Hsync.
    reflexivity.
Qed.

Lemma enter_key_in_message_box_witness :
  input_handleKeyDown (mkKey false false true (str "Enter")) Scenario.clk
    (page_mount Scenario.loc (str "0.abc123xyzw99"))
  = page_mount Scenario.loc (str "0.abc123xyzw99") /\
  page_log (input_handleKeyDown (mkKey false false false (str "Enter")) Scenario.clk
              (page_mount Scenario.loc (str "0.abc123xyzw99")))
  = [PPreventDefault].
Proof.
  split.
  - apply (enter_key_in_message_box (mkKey false false true (str "Enter"))).
    right. reflexivity.
  - apply (enter_key_in_message_box (mkKey false false false (str "Enter"))
             Scenario.clk (page_mount Scenario.loc (str "0.abc123xyzw99")));
      reflexivity.
Defined.

(** ** The session browser *)

(** X14.  The icon and the style class of a stored message always agree:
    the class is [tool] exactly with the wrench or the outbox, [user]
    exactly with the bust, [assistant] exactly with the robot; and the two
    functions fail on the same messages ([null]). *)
Theorem message_icon_matches_class (msg : value) :
  match getMessageIcon msg, getMessageClass msg with
  | None, None => nullish msg = true
  | Some icon, Some cls =>
      (cls = str "tool" /\ (icon = icon_tool_call \/ icon = icon_tool_response)) \/
      (cls = str "user" /\ icon = icon_user) \/
      (cls = str "assistant" /\ icon = icon_assistant)
  | _, _ => False
  end.
Proof.
  unfold getMessageIcon, getMessageClass.
  destruct (nullish msg); [reflexivity|].
  destruct (ToBoolean (member msg (str "is_tool_call")));
    [left; split; [reflexivity|left; reflexivity]|].
  destruct (ToBoolean (member msg (str "is_tool_response")));
    [left; split; [reflexivity|right; reflexivity]|].
  destruct (strict_eq_str (member msg (str "role")) (str "user"));
    [right; left; split; reflexivity|].
  destruct (strict_eq_str (member msg (str "author")) (str "user"));
    [right; left; split; reflexivity|right; right; split; reflexivity].
Qed.

(** X15.  Back in the session browser goes up one level and never further:
    from the messages of a session it keeps the selected user and the
    sessions loaded for that user; two presses from anywhere end at the
    list of users, and a press there changes nothing. *)
Theorem back_goes_up_one_level (b : Browser) :
  (browser_level b = LevelMessages ->
     selectedUser (handleBack b) = selectedUser b /\
     userSessions (handleBack b) = userSessions b /\
     browser_level (handleBack b) <> LevelMessages) /\
  browser_level (handleBack (handleBack b)) = LevelUsers /\
  (browser_level b = LevelUsers -> handleBack b = b).
Proof.
  destruct b as [u us s ms]. unfold browser_level, handleBack. simpl.
  destruct (ToBoolean s) eqn:Hs; destruct (ToBoolean u) eqn:Hu; simpl;
    rewrite ?Hs, ?Hu; simpl; rewrite ?Hs, ?Hu; simpl;
    repeat split; try discriminate; try reflexivity;
    rewrite ?Hs, ?Hu; try reflexivity; intro; discriminate.
Qed.
